(** * jupyter2repo: the install-time settings writer of [setup.py]

    The script resolves the Jupyter configuration directory, builds the path
    of the plugin's settings file under it, creates the directories on the
    way ([os.makedirs] with [exist_ok=True]) and writes a two-key JSON
    document taken from the process environment ([json.dump] with
    [indent=2]).

    The development embeds the script together with the parts of the Python
    runtime it calls, on a POSIX host: [str] values are sequences of code
    points, [posixpath] is transcribed from the standard library, the JSON
    encoder follows [json.encoder], and the file system is a table of
    directories and regular files reached by component-wise path
    resolution. *)

From stdpp Require Import gmap strings list fin_maps.
From Stdlib Require Import NArith ZArith Lia.
From Stdlib Require Strings.Byte.

Local Open Scope N_scope.

(** ** Python text *)

(** A [str] is a sequence of Unicode code points. *)
Definition codepoint := N.
Definition pystr := list N.

(** [py "abc"] is the [str] literal ["abc"] of the script. *)
Definition py (s : string) : pystr :=
  map Ascii.N_of_ascii (String.list_ascii_of_string s).

Module PyStr.

Definition startswith (s : pystr) (c : codepoint) : bool :=
  match s with
  | x :: _ => x =? c
  | [] => false
  end.

Definition endswith (s : pystr) (c : codepoint) : bool :=
  match last s with
  | Some x => x =? c
  | None => false
  end.

(** [s.rfind(c)]: the highest index of [c] in [s], or [-1]. *)
Fixpoint rfind (s : pystr) (c : codepoint) : Z :=
  match s with
  | [] => (-1)%Z
  | x :: s' =>
      let r := rfind s' c in
      if (0 <=? r)%Z then (1 + r)%Z
      else if x =? c then 0%Z else (-1)%Z
  end.

(** [s.rstrip(c)]: [s] without its trailing run of [c]. *)
Fixpoint rstrip (s : pystr) (c : codepoint) : pystr :=
  match s with
  | [] => []
  | x :: s' =>
      match rstrip s' c with
      | [] => if x =? c then [] else [x]
      | r => x :: r
      end
  end.

(** [s[:i]] and [s[i:]] for a non-negative [i]. *)
Definition upto (s : pystr) (i : Z) : pystr := take (Z.to_nat i) s.
Definition from (s : pystr) (i : Z) : pystr := drop (Z.to_nat i) s.

(** [s * n]: [n] copies of [s]. *)
Definition times (s : pystr) (n : nat) : pystr := concat (replicate n s).

End PyStr.

(** ** Python objects

    The objects the script handles besides text: [os.environ.get] returns a
    [str] or [None], and the settings document is a [dict] from [str] keys
    to such values, kept in insertion order. *)
Inductive pyval :=
  | PyNone
  | PyStr (s : pystr).

Definition pydict := list (pystr * pyval).

(** [d[k] = v]: an existing key keeps its position, a new one goes last. *)
Fixpoint dict_setitem (d : pydict) (k : pystr) (v : pyval) : pydict :=
  match d with
  | [] => [(k, v)]
  | (k', v') :: d' =>
      if bool_decide (k' = k) then (k, v) :: d'
      else (k', v') :: dict_setitem d' k v
  end.

Fixpoint dict_get (d : pydict) (k : pystr) : option pyval :=
  match d with
  | [] => None
  | (k', v') :: d' => if bool_decide (k' = k) then Some v' else dict_get d' k
  end.

(** ** [posixpath] *)

Module posixpath.

Definition sep : codepoint := 47.

(** One round of the loop of [join]: [b] replaces the path when it is
    absolute, is appended directly after an empty path or a trailing
    separator, and after a separator otherwise. *)
Definition join_step (path b : pystr) : pystr :=
  if PyStr.startswith b sep then b
  else if bool_decide (path = []) || PyStr.endswith path sep then path ++ b
  else path ++ [sep] ++ b.

Definition join (a : pystr) (p : list pystr) : pystr :=
  fold_left join_step p a.

Definition split (p : pystr) : pystr * pystr :=
  let i := (PyStr.rfind p sep + 1)%Z in
  let head := PyStr.upto p i in
  let tail := PyStr.from p i in
  if bool_decide (head ≠ []) && bool_decide (head ≠ PyStr.times [sep] (length head))
  then (PyStr.rstrip head sep, tail)
  else (head, tail).

Definition dirname (p : pystr) : pystr :=
  let i := (PyStr.rfind p sep + 1)%Z in
  let head := PyStr.upto p i in
  if bool_decide (head ≠ []) && bool_decide (head ≠ PyStr.times [sep] (length head))
  then PyStr.rstrip head sep
  else head.

End posixpath.

(** ** Exceptions *)

Inductive errno := EEXIST | ENOENT | ENOTDIR | EISDIR | EACCES | EBADF.

(** [OSError] carries the error number of the failed call
    ([FileExistsError] is [OSError EEXIST], [PermissionError] is
    [OSError EACCES], and so on). [RecursionError] is what the bounded
    recursion of [makedirs] below raises when its bound is used up. *)
Inductive exn :=
  | OSError (e : errno)
  | UnicodeEncodeError
  | RecursionError.

Definition is_OSError (e : exn) : bool :=
  match e with OSError _ => true | _ => false end.

Definition is_FileExistsError (e : exn) : bool :=
  match e with OSError EEXIST => true | _ => false end.

Inductive result (A : Type) :=
  | Ok (a : A)
  | Error (e : errno).
Arguments Ok {A} a.
Arguments Error {A} e.

(** ** The file system *)

(** A location is the list of names from an object up to the root, nearest
    first; the root is the empty list. Every object is a directory or a
    regular file, with a write permission. Symbolic links are not
    modelled.

    The table has no sizes, limits or creation modes: a name can be of any
    length, a directory or file that is made is writable whatever the
    umask, and a write to an open file, like its close, always goes
    through. A run on a real host can therefore raise where the run on
    the table returns (a full disk, a name too long, a umask without write
    permission). What is proved of the script is for that reason stated of
    a run that has returned, of the calls a run has made, or of a
    particular failure; that a run of the whole script returns is claimed
    nowhere. *)
Abbreviation location := (list (list N)).

Inductive inode :=
  | Dir (writable : bool)
  | File (writable : bool) (data : list Byte.byte).

Record filesystem := FileSystem {
  nodes : gmap location inode;
  cwd : location
}.

Module vfs.

(** The names of a path, in order: the pieces between separators, empty
    pieces dropped. *)
Fixpoint components_from (p : pystr) (cur : pystr) : list pystr :=
  match p with
  | [] => if bool_decide (cur = []) then [] else [cur]
  | c :: p' =>
      if c =? posixpath.sep
      then (if bool_decide (cur = []) then components_from p' []
            else cur :: components_from p' [])
      else components_from p' (cur ++ [c])
  end.

Definition components (p : pystr) : list pystr := components_from p [].

Definition start (fs : filesystem) (p : pystr) : location :=
  if PyStr.startswith p posixpath.sep then [] else cwd fs.

(** Where the name [c] leads from the directory [cur]. *)
Definition target (cur : location) (c : pystr) : location :=
  if bool_decide (c = py ".") then cur
  else if bool_decide (c = py "..") then tail cur
  else c :: cur.

(** Step into [c], which has to be a directory. *)
Definition enter (fs : filesystem) (cur : location) (c : pystr) : result location :=
  match nodes fs !! target cur c with
  | Some (Dir _) => Ok (target cur c)
  | Some (File _ _) => Error ENOTDIR
  | None => Error ENOENT
  end.

Fixpoint walk (fs : filesystem) (cur : location) (cs : list pystr) : result location :=
  match cs with
  | [] => Ok cur
  | c :: cs' =>
      match enter fs cur c with
      | Ok cur' => walk fs cur' cs'
      | Error e => Error e
      end
  end.

Fixpoint unsnoc {A} (l : list A) : option (list A * A) :=
  match l with
  | [] => None
  | x :: l' =>
      match unsnoc l' with
      | None => Some ([], x)
      | Some (i, y) => Some (x :: i, y)
      end
  end.

(** Resolve all of [p] but its last name: the directory reached and the
    name left over ([None] when [p] names the root). *)
Definition lookup_parent (fs : filesystem) (p : pystr)
  : result (location * option pystr) :=
  if bool_decide (p = []) then Error ENOENT
  else
    match unsnoc (components p) with
    | None => Ok (start fs p, None)
    | Some (init, l) =>
        match walk fs (start fs p) init with
        | Ok cur => Ok (cur, Some l)
        | Error e => Error e
        end
    end.

Definition final (cur : location) (l : option pystr) : location :=
  match l with
  | None => cur
  | Some c => target cur c
  end.

Definition special (l : option pystr) : bool :=
  match l with
  | None => true
  | Some c => bool_decide (c = py ".") || bool_decide (c = py "..")
  end.

(** [stat(2)]. *)
Definition stat (fs : filesystem) (p : pystr) : result inode :=
  match lookup_parent fs p with
  | Error e => Error e
  | Ok (cur, l) =>
      match nodes fs !! final cur l with
      | None => Error ENOENT
      | Some (Dir w) => Ok (Dir w)
      | Some (File w d) =>
          if PyStr.endswith p posixpath.sep then Error ENOTDIR
          else Ok (File w d)
      end
  end.

(** Making an entry in the directory at [cur] needs that directory to be
    there and writable. *)
Definition may_create (fs : filesystem) (cur : location) : result unit :=
  match nodes fs !! cur with
  | Some (Dir true) => Ok tt
  | Some (Dir false) => Error EACCES
  | Some (File _ _) => Error ENOTDIR
  | None => Error ENOENT
  end.

Definition put (fs : filesystem) (loc : location) (n : inode) : filesystem :=
  {| nodes := <[loc := n]> (nodes fs); cwd := cwd fs |}.

(** [mkdir(2)]. *)
Definition mkdir (fs : filesystem) (p : pystr) : result filesystem :=
  match lookup_parent fs p with
  | Error e => Error e
  | Ok (cur, l) =>
      if special l then Error EEXIST
      else
        match nodes fs !! final cur l with
        | Some _ => Error EEXIST
        | None =>
            match may_create fs cur with
            | Ok _ => Ok (put fs (final cur l) (Dir true))
            | Error e => Error e
            end
        end
  end.

(** [open(2)] with [O_WRONLY | O_CREAT | O_TRUNC]: the file is created
    empty, or emptied when it exists. *)
Definition open_trunc (fs : filesystem) (p : pystr) : result (filesystem * location) :=
  match lookup_parent fs p with
  | Error e => Error e
  | Ok (cur, l) =>
      if special l || PyStr.endswith p posixpath.sep then Error EISDIR
      else
        match nodes fs !! final cur l with
        | Some (Dir _) => Error EISDIR
        | Some (File true _) =>
            Ok (put fs (final cur l) (File true []), final cur l)
        | Some (File false _) => Error EACCES
        | None =>
            match may_create fs cur with
            | Ok _ => Ok (put fs (final cur l) (File true []), final cur l)
            | Error e => Error e
            end
        end
  end.

(** [write(2)] on an open file: the bytes go to its end. *)
Definition append (fs : filesystem) (loc : location) (bs : list Byte.byte)
  : result filesystem :=
  match nodes fs !! loc with
  | Some (File w d) => Ok (put fs loc (File w (d ++ bs)))
  | _ => Error EBADF
  end.

End vfs.

(** ** The process: state, system calls and exceptions *)

Inductive syscall :=
  | SysStat (p : pystr)
  | SysMkdir (p : pystr)
  | SysOpen (p : pystr)
  | SysWrite (loc : location) (bs : list Byte.byte)
  | SysClose (loc : location).

(** The state of a run: the file system and the system calls made so far,
    oldest first, each with the file system it was made on. *)
Record world := World {
  fs : filesystem;
  log : list (syscall * filesystem)
}.

Inductive outcome (A : Type) :=
  | Returned (a : A)
  | Raised (e : exn).
Arguments Returned {A} a.
Arguments Raised {A} e.

Definition M (A : Type) : Type := world → outcome A * world.

#[global] Instance M_ret : MRet M := λ A a w, (Returned a, w).
#[global] Instance M_bind : MBind M := λ A B k m w,
  match m w with
  | (Returned a, w') => k a w'
  | (Raised e, w') => (Raised e, w')
  end.

Definition raise {A} (e : exn) : M A := λ w, (Raised e, w).

(** [try: m except <handles>: h]. *)
Definition try_except {A} (m : M A) (handles : exn → bool) (h : exn → M A) : M A :=
  λ w, match m w with
       | (Returned a, w') => (Returned a, w')
       | (Raised e, w') => if handles e then h e w' else (Raised e, w')
       end.

(** [try: m finally: c]. *)
Definition try_finally {A} (m : M A) (c : M unit) : M A :=
  λ w, match m w with
       | (Returned a, w') =>
           match c w' with
           | (Returned _, w'') => (Returned a, w'')
           | (Raised e, w'') => (Raised e, w'')
           end
       | (Raised e, w') =>
           match c w' with
           | (Returned _, w'') => (Raised e, w'')
           | (Raised e', w'') => (Raised e', w'')
           end
       end.

(** A system call: logged with the state it sees, then run. *)
Definition sys {A} (c : syscall) (f : filesystem → result (filesystem * A)) : M A :=
  λ w,
    let w1 := {| fs := fs w; log := log w ++ [(c, fs w)] |} in
    match f (fs w) with
    | Ok (fs', a) => (Returned a, {| fs := fs'; log := log w1 |})
    | Error e => (Raised (OSError e), w1)
    end.

(** ** [os] *)

Module os.

Definition stat (p : pystr) : M inode :=
  sys (SysStat p) (λ fs, match vfs.stat fs p with
                         | Ok n => Ok (fs, n)
                         | Error e => Error e
                         end).

(** [os.path.exists] and [os.path.isdir]: a failing [os.stat] means
    no. *)
Definition path_exists (p : pystr) : M bool :=
  try_except (_ ← stat p; mret true) is_OSError (λ _, mret false).

Definition path_isdir (p : pystr) : M bool :=
  try_except (n ← stat p; mret (match n with Dir _ => true | File _ _ => false end))
             is_OSError (λ _, mret false).

Definition mkdir (p : pystr) : M unit :=
  sys (SysMkdir p) (λ fs, match vfs.mkdir fs p with
                          | Ok fs' => Ok (fs', tt)
                          | Error e => Error e
                          end).

Definition curdir : pystr := py ".".

(** [os.makedirs(name, exist_ok=exist_ok)]. The recursion is on the head
    of [name], which is shorter than [name]; [depth] bounds it. The
    bound [makedirs] gives, the length of the path, is never reached:
    the recursion limit of the interpreter, which makes CPython raise
    [RecursionError] on a path of some thousand missing names, is not
    modelled. *)
Fixpoint makedirs_rec (depth : nat) (name : pystr) (exist_ok : bool) : M unit :=
  match depth with
  | O => raise RecursionError
  | S depth' =>
      let '(head, tail) := posixpath.split name in
      let '(head, tail) :=
        if bool_decide (tail = []) then posixpath.split head else (head, tail) in
      returned ←
        (if bool_decide (head ≠ []) && bool_decide (tail ≠ [])
         then
           there ← path_exists head;
           if negb there
           then
             try_except (makedirs_rec depth' head exist_ok)
                        is_FileExistsError (λ _, mret tt);;
             mret (bool_decide (tail = curdir))
           else mret false
         else mret false);
      if (returned : bool) then mret tt
      else
        try_except (mkdir name) is_OSError
          (λ e, isdir ← path_isdir name;
                if negb exist_ok || negb isdir then raise e else mret tt)
  end.

Definition makedirs (name : pystr) (exist_ok : bool) : M unit :=
  makedirs_rec (S (length name)) name exist_ok.

(** [os.environ.get(key)]. *)
Definition environ_get (environ : gmap pystr pystr) (key : pystr) : pyval :=
  match environ !! key with
  | Some s => PyStr s
  | None => PyNone
  end.

End os.

(** ** Text files *)

(** The encoding a text file is opened with when none is given: that of
    the locale. *)
Inductive codec := UTF8 | ASCII | Latin1.

Module io.

Definition byte_of_N (n : N) : Byte.byte :=
  match Byte.of_N n with
  | Some b => b
  | None => Byte.x00
  end.

(** The bytes of one character, with the [strict] error handler. *)
Definition encode_codepoint (enc : codec) (c : codepoint) : option (list Byte.byte) :=
  match enc with
  | ASCII => if c <? 128 then Some [byte_of_N c] else None
  | Latin1 => if c <? 256 then Some [byte_of_N c] else None
  | UTF8 =>
      if c <? 128 then Some [byte_of_N c]
      else if c <? 2048 then
        Some [byte_of_N (192 + c / 64); byte_of_N (128 + c mod 64)]
      else if (55296 <=? c) && (c <=? 57343) then None
      else if c <? 65536 then
        Some [byte_of_N (224 + c / 4096); byte_of_N (128 + (c / 64) mod 64);
              byte_of_N (128 + c mod 64)]
      else if c <? 1114112 then
        Some [byte_of_N (240 + c / 262144); byte_of_N (128 + (c / 4096) mod 64);
              byte_of_N (128 + (c / 64) mod 64); byte_of_N (128 + c mod 64)]
      else None
  end.

Fixpoint encode (enc : codec) (s : pystr) : option (list Byte.byte) :=
  match s with
  | [] => Some []
  | c :: s' =>
      match encode_codepoint enc c, encode enc s' with
      | Some b, Some bs => Some (b ++ bs)
      | _, _ => None
      end
  end.

(** An open text file: where it is and how its text is encoded. *)
Record TextIO := { file_loc : location; file_enc : codec }.

(** [open(path, "w")]. *)
Definition open_w (enc : codec) (path : pystr) : M TextIO :=
  loc ← sys (SysOpen path) (λ fs, vfs.open_trunc fs path);
  mret {| file_loc := loc; file_enc := enc |}.

(** [f.write(s)]. *)
Definition write (f : TextIO) (s : pystr) : M unit :=
  match encode (file_enc f) s with
  | None => raise UnicodeEncodeError
  | Some bs =>
      sys (SysWrite (file_loc f) bs)
          (λ fs, match vfs.append fs (file_loc f) bs with
                 | Ok fs' => Ok (fs', tt)
                 | Error e => Error e
                 end)
  end.

Definition close (f : TextIO) : M unit :=
  sys (SysClose (file_loc f)) (λ fs, Ok (fs, tt)).

(** [with open(path, "w") as f: body]. *)
Definition with_open_w {A} (enc : codec) (path : pystr) (body : TextIO → M A) : M A :=
  f ← open_w enc path;
  try_finally (body f) (close f).

End io.

(** ** The JSON encoder *)

Module json.

Definition quote : codepoint := 34.
Definition py_newline : pystr := [10].

(** The character ["0123456789abcdef"[d]]. *)
Definition hexdigit (d : N) : codepoint :=
  if d <? 10 then 48 + d else 87 + d.

Fixpoint hex_digits (fuel : nat) (n : N) (acc : pystr) : pystr :=
  match fuel with
  | O => acc
  | S fuel' =>
      if n =? 0 then acc
      else hex_digits fuel' (n / 16) (hexdigit (n mod 16) :: acc)
  end.

(** ['{0:04x}'.format(n)]: lower-case hexadecimal, zero-padded to four
    digits. *)
Definition format_04x (n : N) : pystr :=
  let ds := hex_digits (N.to_nat (N.size n)) n [] in
  replicate (4 - length ds)%nat 48 ++ ds.

(** [ESCAPE_ASCII] matches a backslash, a double quote and every
    character outside [' '..'~']. *)
Definition needs_escape (c : codepoint) : bool :=
  (c =? 92) || (c =? 34) || (c <? 32) || (126 <? c).

(** [replace] of [py_encode_basestring_ascii]: the short escapes of
    [ESCAPE_DCT], [\u00XX] for the other control characters, [\uXXXX] in
    the basic plane and a surrogate pair above it. *)
Definition replace (c : codepoint) : pystr :=
  if c =? 92 then py "\\"
  else if c =? 34 then [92; quote]
  else if c =? 8 then py "\b"
  else if c =? 12 then py "\f"
  else if c =? 10 then py "\n"
  else if c =? 13 then py "\r"
  else if c =? 9 then py "\t"
  else if c <? 65536 then py "\u" ++ format_04x c
  else
    let n := c - 65536 in
    let s1 := N.lor 55296 (N.land (N.shiftr n 10) 1023) in
    let s2 := N.lor 56320 (N.land n 1023) in
    py "\u" ++ format_04x s1 ++ py "\u" ++ format_04x s2.

Definition encode_char (c : codepoint) : pystr :=
  if needs_escape c then replace c else [c].

Definition encode_basestring_ascii (s : pystr) : pystr :=
  [quote] ++ concat (map encode_char s) ++ [quote].

(** [JSONEncoder(indent=indent)]: with an indent the item separator is a
    bare comma. *)
Record JSONEncoder := {
  indent : option nat;
  item_separator : pystr;
  key_separator : pystr
}.

Definition make_encoder (indent : option nat) : JSONEncoder :=
  {| indent := indent;
     item_separator := match indent with Some _ => py "," | None => py ", " end;
     key_separator := py ": " |}.

Definition iterencode_value (v : pyval) : pystr :=
  match v with
  | PyStr s => encode_basestring_ascii s
  | PyNone => py "null"
  end.

(** The loop of [_iterencode_dict] over the items. *)
Fixpoint iterencode_items (e : JSONEncoder) (item_sep : pystr) (first : bool)
    (items : pydict) : list pystr :=
  match items with
  | [] => []
  | (key, value) :: items' =>
      (if first then [] else [item_sep])
      ++ [encode_basestring_ascii key; key_separator e; iterencode_value value]
      ++ iterencode_items e item_sep false items'
  end.

(** [_iterencode_dict(dct, _current_indent_level)]: the chunks it
    yields. *)
Definition iterencode_dict (e : JSONEncoder) (dct : pydict) (level : nat)
  : list pystr :=
  if bool_decide (dct = []) then [py "{}"]
  else
    match indent e with
    | Some n =>
        let _indent := PyStr.times (py " ") n in
        let level' := (level + 1)%nat in
        let newline_indent := py_newline ++ PyStr.times _indent level' in
        [py "{"; newline_indent]
        ++ iterencode_items e (item_separator e ++ newline_indent) true dct
        ++ [py_newline ++ PyStr.times _indent level; py "}"]
    | None =>
        [py "{"] ++ iterencode_items e (item_separator e) true dct ++ [py "}"]
    end.

Definition iterencode (e : JSONEncoder) (o : pydict) : list pystr :=
  iterencode_dict e o 0.

(** [json.dumps(obj, indent=indent)]: the chunks joined. *)
Definition dumps (obj : pydict) (indent : option nat) : pystr :=
  concat (iterencode (make_encoder indent) obj).

(** [json.dump(obj, fp, indent=indent)]: every chunk is written to
    [fp]. *)
Fixpoint write_chunks (fp : io.TextIO) (chunks : list pystr) : M unit :=
  match chunks with
  | [] => mret tt
  | chunk :: chunks' => io.write fp chunk;; write_chunks fp chunks'
  end.

Definition dump (obj : pydict) (fp : io.TextIO) (indent : option nat) : M unit :=
  write_chunks fp (iterencode (make_encoder indent) obj).

End json.

(** ** The script *)

(** What the script takes from its host: the directory returned by
    [jupyter_config_dir()], the process environment and the locale's
    encoding. *)
Record host := {
  config_dir : pystr;
  environ : gmap (list N) (list N);
  locale_encoding : codec
}.

Definition PLUGIN_ID : pystr := py "jupyter2repo".

Definition settings_path (config_dir : pystr) : pystr :=
  posixpath.join config_dir [py "lab"; py "user-settings"; PLUGIN_ID; py "plugin.json"].

Definition settings_data (environ : gmap (list N) (list N)) : pydict :=
  dict_setitem
    (dict_setitem [] (py "GH_APP_ID") (os.environ_get environ (py "GH_APP_ID")))
    (py "GH_APP_URL") (os.environ_get environ (py "GH_APP_URL")).

(** Lines 6 to 16 of [setup.py]. *)
Definition setup (h : host) : M unit :=
  let settings_path := settings_path (config_dir h) in
  os.makedirs (posixpath.dirname settings_path) true;;
  let settings_data := settings_data (environ h) in
  io.with_open_w (locale_encoding h) settings_path
    (λ f, json.dump settings_data f (Some 2%nat)).

Definition run (h : host) (fs0 : filesystem) : outcome unit * world :=
  setup h {| fs := fs0; log := [] |}.

(** ** Reading the file back

    The claims about the written document are stated through a reader: the
    text of the file decoded from its bytes and parsed as JSON. The reader
    follows [json.decoder] on the part of the grammar the settings
    document uses: one object whose keys are strings and whose values are
    strings or [null]. *)

Module reader.

(** The text of a file that holds ASCII only, which every codec above
    decodes the same way. *)
Fixpoint decode_ascii (bs : list Byte.byte) : option pystr :=
  match bs with
  | [] => Some []
  | b :: bs' =>
      if Byte.to_N b <? 128
      then match decode_ascii bs' with
           | Some s => Some (Byte.to_N b :: s)
           | None => None
           end
      else None
  end.

Definition is_ws (c : codepoint) : bool :=
  (c =? 32) || (c =? 9) || (c =? 10) || (c =? 13).

Fixpoint skip_ws (s : pystr) : pystr :=
  match s with
  | c :: s' => if is_ws c then skip_ws s' else s
  | [] => []
  end.

Definition hexval (c : codepoint) : option N :=
  if (48 <=? c) && (c <=? 57) then Some (c - 48)
  else if (97 <=? c) && (c <=? 102) then Some (c - 87)
  else if (65 <=? c) && (c <=? 70) then Some (c - 55)
  else None.

(** Four hexadecimal digits, as after [\u]. *)
Definition decode_uXXXX (s : pystr) : option (N * pystr) :=
  match s with
  | a :: b :: c :: d :: rest =>
      match hexval a, hexval b, hexval c, hexval d with
      | Some va, Some vb, Some vc, Some vd =>
          Some (((va * 16 + vb) * 16 + vc) * 16 + vd, rest)
      | _, _, _, _ => None
      end
  | _ => None
  end.

(** The one-character escapes of [BACKSLASH]. *)
Definition unescape (c : codepoint) : option codepoint :=
  if c =? 34 then Some 34
  else if c =? 92 then Some 92
  else if c =? 47 then Some 47
  else if c =? 98 then Some 8
  else if c =? 102 then Some 12
  else if c =? 110 then Some 10
  else if c =? 114 then Some 13
  else if c =? 116 then Some 9
  else None.

Definition is_high_surrogate (c : codepoint) : bool := (55296 <=? c) && (c <=? 56319).
Definition is_low_surrogate (c : codepoint) : bool := (56320 <=? c) && (c <=? 57343).

Definition expect (c : codepoint) (s : pystr) : option pystr :=
  match s with
  | x :: s' => if x =? c then Some s' else None
  | [] => None
  end.

Fixpoint expect_all (pre : pystr) (s : pystr) : option pystr :=
  match pre with
  | [] => Some s
  | c :: pre' =>
      match expect c s with
      | Some s' => expect_all pre' s'
      | None => None
      end
  end.

(** A [\uXXXX] escape of a low surrogate at the head of [s]. *)
Definition low_surrogate_escape (s : pystr) : option (N * pystr) :=
  match expect_all (py "\u") s with
  | Some s' =>
      match decode_uXXXX s' with
      | Some (uni2, rest) => if is_low_surrogate uni2 then Some (uni2, rest) else None
      | None => None
      end
  | None => None
  end.

(** The character of a [\uXXXX] escape with value [uni] and the text
    left after it: a high surrogate directly followed by the escape of a
    low one is one character with it. *)
Definition unicode_escape (uni : N) (s : pystr) : N * pystr :=
  if is_high_surrogate uni then
    match low_surrogate_escape s with
    | Some (uni2, rest) =>
        (65536 + N.lor (N.shiftl (uni - 55296) 10) (uni2 - 56320), rest)
    | None => (uni, s)
    end
  else (uni, s).

(** [scanstring] from just after the opening quote: the string and the
    text after its closing quote. *)
Fixpoint scanstring (fuel : nat) (s : pystr) : option (pystr * pystr) :=
  match fuel with
  | O => None
  | S fuel' =>
      match s with
      | [] => None
      | c :: s1 =>
          if c =? 34 then Some ([], s1)
          else if c =? 92 then
            match s1 with
            | [] => None
            | esc :: s2 =>
                if esc =? 117 then
                  match decode_uXXXX s2 with
                  | None => None
                  | Some (uni, s3) =>
                      match scanstring fuel' (unicode_escape uni s3).2 with
                      | Some (r, rest) => Some ((unicode_escape uni s3).1 :: r, rest)
                      | None => None
                      end
                  end
                else
                  match unescape esc with
                  | None => None
                  | Some char =>
                      match scanstring fuel' s2 with
                      | Some (r, rest) => Some (char :: r, rest)
                      | None => None
                      end
                  end
            end
          else if c <? 32 then None
          else
            match scanstring fuel' s1 with
            | Some (r, rest) => Some (c :: r, rest)
            | None => None
            end
      end
  end.

(** A value of the settings document: a string or [null]. *)
Definition scan_value (s : pystr) : option (pyval * pystr) :=
  match expect 34 s with
  | Some s' =>
      match scanstring (length s') s' with
      | Some (v, rest) => Some (PyStr v, rest)
      | None => None
      end
  | None =>
      match expect_all (py "null") s with
      | Some rest => Some (PyNone, rest)
      | None => None
      end
  end.

(** The members of an object, from just after the opening quote of a
    key, up to and including the closing brace. *)
Fixpoint members (fuel : nat) (s : pystr) : option (list (pystr * pyval) * pystr) :=
  match fuel with
  | O => None
  | S fuel' =>
      '(key, s1) ← scanstring (length s) s;
      s2 ← expect 58 (skip_ws s1);
      '(value, s3) ← scan_value (skip_ws s2);
      match skip_ws s3 with
      | c :: s4 =>
          if c =? 125 then Some ([(key, value)], s4)
          else if c =? 44 then
            s5 ← expect 34 (skip_ws s4);
            '(pairs, rest) ← members fuel' s5;
            Some ((key, value) :: pairs, rest)
          else None
      | [] => None
      end
  end.

Definition scan_object (s : pystr) : option (list (pystr * pyval) * pystr) :=
  s1 ← expect 123 s;
  match skip_ws s1 with
  | c :: s2 =>
      if c =? 125 then Some ([], s2)
      else if c =? 34 then members (length s2) s2
      else None
  | [] => None
  end.

(** [dict(pairs)]. *)
Definition dict_of (pairs : list (pystr * pyval)) : pydict :=
  fold_left (λ d kv, dict_setitem d kv.1 kv.2) pairs [].

(** [json.loads(s)] for a settings document. *)
Definition loads (s : pystr) : option pydict :=
  match scan_object (skip_ws s) with
  | Some (pairs, rest) =>
      if bool_decide (skip_ws rest = []) then Some (dict_of pairs) else None
  | None => None
  end.

(** The document in a file. *)
Definition load (bs : list Byte.byte) : option pydict :=
  match decode_ascii bs with
  | Some s => loads s
  | None => None
  end.

End reader.

(** ** Well-formed text

    A [str] holds code points below [0x110000]. Text that reaches Python
    from the operating system, as the values of [os.environ] do, never has
    a high surrogate directly followed by a low one: the decoder turns
    such a pair into the one character it stands for, and the escapes for
    undecodable bytes are low surrogates only. *)
Fixpoint wellformed (s : pystr) : bool :=
  match s with
  | [] => true
  | c :: s' =>
      (c <? 1114112)
      && negb (reader.is_high_surrogate c
               && match s' with
                  | c' :: _ => reader.is_low_surrogate c'
                  | [] => false
                  end)
      && wellformed s'
  end.

Definition wellformed_value (v : pyval) : bool :=
  match v with
  | PyNone => true
  | PyStr s => wellformed s
  end.

(** * Notions the statements use *)

Definition dir_prefix (config_dir : pystr) : pystr :=
  if bool_decide (config_dir = []) || PyStr.endswith config_dir posixpath.sep
  then config_dir else config_dir ++ [posixpath.sep].

Definition rel_dir : pystr := py "lab/user-settings/jupyter2repo".

Definition rel_file : pystr := py "lab/user-settings/jupyter2repo/plugin.json".

(** The directories of [fs] are still there in [fs']. *)
Definition extends (fs fs' : filesystem) : Prop :=
  cwd fs' = cwd fs ∧
  ∀ loc w, nodes fs !! loc = Some (Dir w) → nodes fs' !! loc = Some (Dir w).

(** [respects R m]: every run of [m] takes a state to one related to it by
    [R]. *)
Definition respects (R : world → world → Prop) {A} (m : M A) : Prop :=
  ∀ w, R w (m w).2.

(** [raises_only P m]: whatever [m] raises satisfies [P]. *)
Definition raises_only (P : exn → Prop) {A} (m : M A) : Prop :=
  ∀ w e w', m w = (Raised e, w') → P e.

(** The file system only gains objects and file contents. *)
Definition grows (w w' : world) : Prop := extends (fs w) (fs w').

(** The log gains system calls that all satisfy [P]. *)
Definition logs (P : syscall → Prop) (w w' : world) : Prop :=
  ∃ evs, log w' = log w ++ evs ∧ Forall (λ ev, P ev.1) evs.

Definition is_dir_call (c : syscall) : Prop :=
  match c with SysStat _ | SysMkdir _ => True | _ => False end.

Definition is_file_call (c : syscall) : Prop :=
  match c with SysOpen _ | SysWrite _ _ | SysClose _ => True | _ => False end.

Definition logged (w : world) (c : syscall) : world :=
  {| fs := fs w; log := log w ++ [(c, fs w)] |}.

Definition ascii_text (s : pystr) : Prop := Forall (λ c, c < 128) s.

Definition ascii_bytes (s : pystr) : list Byte.byte := map io.byte_of_N s.

Definition settings_text (h : host) : pystr :=
  json.dumps (settings_data (environ h)) (Some 2%nat).

Definition body (s : pystr) : pystr := concat (map json.encode_char s).

(** [f] holds of the [k] numbers from [n] on. *)
Fixpoint all_from (k : nat) (n : N) (f : N → bool) : bool :=
  match k with
  | O => true
  | S k' => f n && all_from k' (N.succ n) f
  end.

Definition reads_back (n : N) : bool :=
  match reader.decode_uXXXX (json.format_04x n) with
  | Some (v, []) => v =? n
  | _ => false
  end.

Definition blank (s : pystr) : Prop := Forall (λ c, reader.is_ws c = true) s.

(** The text of the items of an object after the first key's opening
    quote is taken off: every further item starts with the separator. *)
Fixpoint items_text (ksep sep : pystr) (d : pydict) : pystr :=
  match d with
  | [] => []
  | (k, v) :: d' =>
      sep ++ 34 :: body k ++ 34 :: ksep ++ json.iterencode_value v ++ items_text ksep sep d'
  end.

Definition wellformed_item (kv : pystr * pyval) : Prop :=
  wellformed kv.1 = true ∧ wellformed_value kv.2 = true.

(** The paths opened and the bytes written, as the log has them. *)
Definition opened (l : list (syscall * filesystem)) : list pystr :=
  omap (λ ev, match ev.1 with SysOpen p => Some p | _ => None end) l.

Definition written (l : list (syscall * filesystem)) : list Byte.byte :=
  concat (omap (λ ev, match ev.1 with SysWrite _ bs => Some bs | _ => None end) l).

Definition is_write_call (c : syscall) : Prop :=
  match c with SysWrite _ _ | SysClose _ => True | _ => False end.







(** The last part of [makedirs]: [mkdir(name)], where an [OSError] is let
    go when [exist_ok] is set and the directory is there. *)
Definition make_last (name : pystr) (exist_ok : bool) : M unit :=
  try_except (os.mkdir name) is_OSError
    (λ e, isdir ← os.path_isdir name;
          if negb exist_ok || negb isdir then raise e else mret tt).

(** A home directory with nothing of Jupyter in it yet. *)
Definition sample_root : filesystem :=
  {| nodes := list_to_map [([], Dir true); ([py "home"], Dir true);
                           ([py "u"; py "home"], Dir true)];
     cwd := [py "u"; py "home"] |}.

(** [GH_APP_ID] is set, [GH_APP_URL] is not. *)
Definition sample_host : host :=
  {| config_dir := py "/home/u/.jupyter";
     environ := list_to_map [(py "GH_APP_ID", py "abc123"); (py "HOME", py "/home/u")];
     locale_encoding := UTF8 |}.

(** The same two settings seen from another process: more variables, another
    locale. *)
Definition other_host : host :=
  {| config_dir := py "/home/u/.jupyter";
     environ := list_to_map [(py "GH_APP_ID", py "abc123"); (py "LANG", py "C")];
     locale_encoding := ASCII |}.

(** [GH_APP_ID] is set to the empty string. *)
Definition blank_host : host :=
  {| config_dir := py "/home/u/.jupyter";
     environ := list_to_map [(py "GH_APP_ID", [])];
     locale_encoding := UTF8 |}.

(** The file system after an installation. *)
Definition sample_installed : filesystem := fs (run sample_host sample_root).2.



(** An installation where a directory sits at the place of the settings
    file. *)
Definition sample_blocked : filesystem :=
  vfs.put sample_installed
    [py "plugin.json"; py "jupyter2repo"; py "user-settings"; py "lab"; py ".jupyter";
     py "u"; py "home"]
    (Dir true).


(** The directories made, as the log has them. *)
Definition made (l : list (syscall * filesystem)) : list pystr :=
  omap (λ ev, match ev.1 with SysMkdir p => Some p | _ => None end) l.


(** A configuration directory that cannot be written to. *)
Definition sample_locked : filesystem :=
  {| nodes := list_to_map [([], Dir true); ([py "home"], Dir true);
                           ([py "u"; py "home"], Dir true);
                           ([py ".jupyter"; py "u"; py "home"], Dir false)];
     cwd := [py "u"; py "home"] |}.

(** The sample host with its configuration directory written with a
    separator at the end. *)
Definition slash_host : host :=
  {| config_dir := py "/home/u/.jupyter/";
     environ := environ sample_host;
     locale_encoding := locale_encoding sample_host |}.

(** A regular file where the configuration directory should be. *)
Definition sample_file_in_the_way : filesystem :=
  {| nodes := list_to_map [([], Dir true); ([py "home"], Dir true);
                           ([py "u"; py "home"], Dir true);
                           ([py ".jupyter"; py "u"; py "home"], File true [])];
     cwd := [py "u"; py "home"] |}.


(** * Lemmas *)

(** * Properties *)

(** ** Text *)

Section text.
Implicit Types (s t a b : pystr) (c x : codepoint).

Lemma endswith_app s t c : t ≠ [] → PyStr.endswith (s ++ t) c = PyStr.endswith t c.
Proof.
  intros Ht. unfold PyStr.endswith. rewrite last_app.
  destruct (last t) eqn:E; [done|]. apply last_None in E. done.
Qed.

Lemma endswith_snoc s x c : PyStr.endswith (s ++ [x]) c = (x =? c).
Proof. unfold PyStr.endswith. by rewrite last_snoc. Qed.

Lemma rfind_absent b c : Forall (λ x, x ≠ c) b → PyStr.rfind b c = (-1)%Z.
Proof.
  induction 1 as [|x b Hx _ IH]; [done|]. simpl. rewrite IH. simpl.
  by apply N.eqb_neq in Hx as ->.
Qed.

Lemma rfind_bound a c : (-1 ≤ PyStr.rfind a c < Z.of_nat (length a))%Z.
Proof.
  induction a as [|x a IH]; simpl; [lia|].
  destruct (Z.leb_spec 0 (PyStr.rfind a c)); [lia|].
  destruct (x =? c); lia.
Qed.

Lemma rfind_last a b c :
  Forall (λ x, x ≠ c) b → PyStr.rfind (a ++ c :: b) c = Z.of_nat (length a).
Proof.
  intros Hb. induction a as [|x a IH]; simpl.
  - rewrite (rfind_absent b c Hb). simpl. by rewrite N.eqb_refl.
  - rewrite IH. destruct (Z.leb_spec 0 (Z.of_nat (length a))); lia.
Qed.

Lemma rstrip_snoc_ne a x c : x ≠ c → PyStr.rstrip (a ++ [x]) c = a ++ [x].
Proof.
  intros Hx. induction a as [|y a IH]; simpl.
  - by apply N.eqb_neq in Hx as ->.
  - rewrite IH. by destruct a.
Qed.

Lemma rstrip_snoc_eq a c : PyStr.rstrip (a ++ [c]) c = PyStr.rstrip a c.
Proof.
  induction a as [|y a IH]; simpl.
  - by rewrite N.eqb_refl.
  - by rewrite IH.
Qed.

Lemma rstrip_length a c : (length (PyStr.rstrip a c) ≤ length a)%nat.
Proof.
  induction a as [|y a IH]; simpl; [done|].
  destruct (PyStr.rstrip a c); simpl in *; [destruct (y =? c); simpl; lia | lia].
Qed.

Lemma times_sep_Forall n : Forall (λ x, x = posixpath.sep) (PyStr.times [posixpath.sep] n).
Proof. induction n; simpl; by constructor. Qed.

Lemma not_all_sep a x :
  x ≠ posixpath.sep → x ∈ a → a ≠ PyStr.times [posixpath.sep] (length a).
Proof.
  intros Hx Hin E. pose proof (times_sep_Forall (length a)) as HF.
  rewrite <- E in HF. rewrite Forall_forall in HF. by apply Hx, HF.
Qed.

End text.

Section paths.
Implicit Types (p d b cfg : pystr) (x : codepoint).

Lemma join_step_relative p b :
  PyStr.startswith b posixpath.sep = false →
  posixpath.join_step p b = dir_prefix p ++ b.
Proof.
  intros Hb. unfold posixpath.join_step, dir_prefix. rewrite Hb.
  destruct (bool_decide (p = []) || PyStr.endswith p posixpath.sep); [done|].
  by rewrite <- app_assoc.
Qed.

Lemma dir_prefix_snoc p x : x ≠ posixpath.sep → dir_prefix (p ++ [x]) = p ++ [x] ++ [posixpath.sep].
Proof.
  intros Hx. unfold dir_prefix. rewrite endswith_snoc.
  apply N.eqb_neq in Hx as ->.
  rewrite bool_decide_eq_false_2; [by rewrite <- app_assoc | by destruct p].
Qed.

(** A path whose last name [b] follows a directory part [d] that does
    not end in a separator splits into the two. *)
Lemma split_dir_base d x b :
  x ≠ posixpath.sep → Forall (λ y, y ≠ posixpath.sep) b →
  posixpath.split ((d ++ [x]) ++ posixpath.sep :: b) = (d ++ [x], b).
Proof.
  intros Hx Hb. unfold posixpath.split, PyStr.upto, PyStr.from.
  rewrite rfind_last by done.
  replace (Z.to_nat (Z.of_nat (length (d ++ [x])) + 1)) with (length ((d ++ [x]) ++ [posixpath.sep]))
    by (rewrite !length_app; simpl; lia).
  replace ((d ++ [x]) ++ posixpath.sep :: b) with (((d ++ [x]) ++ [posixpath.sep]) ++ b)
    by (by rewrite <- !app_assoc).
  rewrite take_app_length, drop_app_length.
  rewrite bool_decide_eq_true_2 by (by destruct d).
  rewrite bool_decide_eq_true_2.
  - simpl. by rewrite rstrip_snoc_eq, rstrip_snoc_ne.
  - apply (not_all_sep _ x); [done|]. rewrite !elem_of_app, list_elem_of_singleton. auto.
Qed.

Lemma dirname_split p : posixpath.dirname p = (posixpath.split p).1.
Proof.
  unfold posixpath.dirname, posixpath.split.
  by destruct (_ && _).
Qed.

Lemma split_length p : (length (posixpath.split p).1 + length (posixpath.split p).2 ≤ length p)%nat.
Proof.
  unfold posixpath.split, PyStr.upto, PyStr.from.
  set (i := Z.to_nat _).
  assert (length (take i p) + length (drop i p) = length p)%nat as E
    by (rewrite <- length_app, take_drop; done).
  destruct (_ && _); simpl; [|lia].
  pose proof (rstrip_length (take i p) posixpath.sep). lia.
Qed.

End paths.

Section script_paths.
Implicit Types (cfg : pystr).

Lemma settings_path_eq cfg : settings_path cfg = dir_prefix cfg ++ rel_file.
Proof.
  unfold settings_path, posixpath.join. simpl fold_left.
  rewrite (join_step_relative cfg) by done.
  change (py "lab") with ([108; 97] ++ [98]). rewrite (app_assoc (dir_prefix cfg)).
  rewrite (join_step_relative _ (py "user-settings")) by done.
  rewrite dir_prefix_snoc by done.
  change (py "user-settings") with (py "user-setting" ++ [115]).
  rewrite !app_assoc.
  rewrite (join_step_relative _ PLUGIN_ID) by done.
  rewrite dir_prefix_snoc by done.
  change PLUGIN_ID with (py "jupyter2rep" ++ [111]).
  rewrite !app_assoc.
  rewrite (join_step_relative _ (py "plugin.json")) by done.
  rewrite dir_prefix_snoc by done.
  by rewrite <- !app_assoc.
Qed.

Lemma join_rel_file cfg : posixpath.join cfg [rel_file] = dir_prefix cfg ++ rel_file.
Proof. unfold posixpath.join. simpl. by rewrite join_step_relative. Qed.

Lemma settings_dirname cfg :
  posixpath.dirname (settings_path cfg) = dir_prefix cfg ++ rel_dir.
Proof.
  rewrite dirname_split, settings_path_eq.
  change rel_file with ((py "lab/user-settings/jupyter2rep" ++ [111]) ++ posixpath.sep :: py "plugin.json").
  rewrite !app_assoc. rewrite split_dir_base; [| done | by repeat constructor].
  by rewrite <- !app_assoc.
Qed.

Lemma settings_dir_split cfg :
  posixpath.split (dir_prefix cfg ++ rel_dir) = (dir_prefix cfg ++ py "lab/user-settings", PLUGIN_ID).
Proof.
  change rel_dir with ((py "lab/user-setting" ++ [115]) ++ posixpath.sep :: PLUGIN_ID).
  rewrite !app_assoc. rewrite split_dir_base; [| done | by repeat constructor].
  by rewrite <- !app_assoc.
Qed.
End script_paths.

Section resolution.
Implicit Types (fs : filesystem) (p cfg r : pystr) (cur : location) (cs : list pystr).

Lemma components_from_sep a b acc :
  vfs.components_from (a ++ posixpath.sep :: b) acc
  = vfs.components_from a acc ++ vfs.components b.
Proof.
  revert acc. induction a as [|x a IH]; intros acc; simpl.
  - by destruct (bool_decide (acc = [])).
  - destruct (x =? posixpath.sep).
    + destruct (bool_decide (acc = [])); by rewrite IH.
    + apply IH.
Qed.

Lemma components_snoc_sep a : vfs.components (a ++ [posixpath.sep]) = vfs.components a.
Proof. unfold vfs.components. rewrite components_from_sep. apply app_nil_r. Qed.

Lemma components_prefix cfg r :
  vfs.components (dir_prefix cfg ++ r) = vfs.components cfg ++ vfs.components r.
Proof.
  unfold dir_prefix.
  destruct (bool_decide (cfg = [])) eqn:E; simpl.
  { apply bool_decide_eq_true in E as ->. done. }
  unfold PyStr.endswith. destruct (last cfg) as [x|] eqn:L.
  - apply last_Some in L as [a ->]. destruct (N.eqb_spec x posixpath.sep) as [->|_].
    + rewrite <- app_assoc. simpl. unfold vfs.components at 1.
      by rewrite components_from_sep, components_snoc_sep.
    + rewrite <- app_assoc. simpl. unfold vfs.components at 1.
      by rewrite components_from_sep.
  - rewrite <- app_assoc. simpl. unfold vfs.components at 1.
    by rewrite components_from_sep.
Qed.

Lemma start_prefix fs cfg r :
  PyStr.startswith r posixpath.sep = false →
  vfs.start fs (dir_prefix cfg ++ r) = vfs.start fs cfg.
Proof.
  intros Hr. unfold vfs.start, dir_prefix.
  destruct cfg as [|x cfg]; simpl; [by rewrite Hr|].
  by destruct (PyStr.endswith _ _).
Qed.

Lemma unsnoc_snoc {A} (l : list A) x : vfs.unsnoc (l ++ [x]) = Some (l, x).
Proof. induction l as [|y l IH]; simpl; [done|]. by rewrite IH. Qed.

Lemma walk_app fs cur cs cs' :
  vfs.walk fs cur (cs ++ cs')
  = match vfs.walk fs cur cs with
    | Ok cur' => vfs.walk fs cur' cs'
    | Error e => Error e
    end.
Proof.
  revert cur. induction cs as [|c cs IH]; intros cur; simpl; [done|].
  destruct (vfs.enter fs cur c); [apply IH | done].
Qed.

Lemma enter_Ok fs cur c cur' :
  vfs.enter fs cur c = Ok cur' →
  cur' = vfs.target cur c ∧ ∃ w, nodes fs !! cur' = Some (Dir w).
Proof.
  unfold vfs.enter. destruct (nodes fs !! vfs.target cur c) as [[w|w d]|] eqn:E; [|done..].
  intros [= <-]. eauto.
Qed.

Lemma extends_refl fs : extends fs fs.
Proof. by split. Qed.

Lemma extends_trans fs1 fs2 fs3 : extends fs1 fs2 → extends fs2 fs3 → extends fs1 fs3.
Proof. intros [E1 H1] [E2 H2]. split; [congruence | eauto]. Qed.

Lemma enter_extends fs fs' cur c cur' :
  extends fs fs' → vfs.enter fs cur c = Ok cur' → vfs.enter fs' cur c = Ok cur'.
Proof.
  intros [_ H] E. apply enter_Ok in E as E'. destruct E' as [-> [w Hw]].
  unfold vfs.enter. by rewrite (H _ _ Hw).
Qed.

Lemma walk_extends fs fs' cur cs cur' :
  extends fs fs' → vfs.walk fs cur cs = Ok cur' → vfs.walk fs' cur cs = Ok cur'.
Proof.
  intros Hext. revert cur. induction cs as [|c cs IH]; intros cur; simpl; [done|].
  destruct (vfs.enter fs cur c) as [cur1|] eqn:E; [|done].
  rewrite (enter_extends _ _ _ _ _ Hext E). apply IH.
Qed.

Lemma start_extends fs fs' p : extends fs fs' → vfs.start fs' p = vfs.start fs p.
Proof. intros [E _]. unfold vfs.start. by rewrite E. Qed.

Lemma lookup_parent_extends fs fs' p cur l :
  extends fs fs' → vfs.lookup_parent fs p = Ok (cur, l) → vfs.lookup_parent fs' p = Ok (cur, l).
Proof.
  intros Hext. unfold vfs.lookup_parent. rewrite (start_extends _ _ _ Hext).
  destruct (bool_decide (p = [])); [done|].
  destruct (vfs.unsnoc (vfs.components p)) as [[init c]|]; [|done].
  destruct (vfs.walk fs _ init) as [cur1|] eqn:W; [|done].
  by rewrite (walk_extends _ _ _ _ _ Hext W).
Qed.

(** A directory stays a directory. *)
Lemma stat_dir_extends fs fs' p w :
  extends fs fs' → vfs.stat fs p = Ok (Dir w) → vfs.stat fs' p = Ok (Dir w).
Proof.
  intros Hext. unfold vfs.stat.
  destruct (vfs.lookup_parent fs p) as [[cur l]|] eqn:L; [|done].
  rewrite (lookup_parent_extends _ _ _ _ _ Hext L).
  destruct (nodes fs !! vfs.final cur l) as [[w'|w' d]|] eqn:E; [| |done].
  - intros [= ->]. destruct Hext as [_ H]. by rewrite (H _ _ E).
  - by destruct (PyStr.endswith p posixpath.sep).
Qed.

Lemma put_extends fs loc n :
  (∀ w, nodes fs !! loc ≠ Some (Dir w)) → extends fs (vfs.put fs loc n).
Proof.
  intros H. split; [done|]. intros k w Hk. simpl.
  rewrite lookup_insert_ne; [done|]. intros ->. by apply (H w).
Qed.

Lemma mkdir_Ok fs p fs' :
  vfs.mkdir fs p = Ok fs' →
  ∃ cur c, vfs.lookup_parent fs p = Ok (cur, Some c) ∧
           nodes fs !! vfs.target cur c = None ∧
           fs' = vfs.put fs (vfs.target cur c) (Dir true).
Proof.
  unfold vfs.mkdir.
  destruct (vfs.lookup_parent fs p) as [[cur [c|]]|]; [|done..].
  destruct (vfs.special (Some c)); [done|]. simpl.
  destruct (nodes fs !! vfs.target cur c) eqn:E; [done|].
  destruct (vfs.may_create fs cur); [|done].
  intros [= <-]. eauto.
Qed.

Lemma mkdir_extends fs p fs' : vfs.mkdir fs p = Ok fs' → extends fs fs'.
Proof.
  intros (cur & c & _ & E & ->)%mkdir_Ok. apply put_extends. intros w. by rewrite E.
Qed.

(** After a successful [mkdir] the path names a directory. *)
Lemma mkdir_stat fs p fs' : vfs.mkdir fs p = Ok fs' → vfs.stat fs' p = Ok (Dir true).
Proof.
  intros H. pose proof (mkdir_extends _ _ _ H) as Hext.
  apply mkdir_Ok in H as (cur & c & L & E & ->).
  unfold vfs.stat. rewrite (lookup_parent_extends _ _ _ _ _ Hext L). simpl.
  by rewrite lookup_insert_eq.
Qed.

End resolution.

(** ** Runs *)

Section monad.
Context {A B : Type}.
Implicit Types (w : world) (e : exn).

Lemma bind_Returned (m : M A) (k : A → M B) w a w' :
  m w = (Returned a, w') → (m ≫= k) w = k a w'.
Proof. intros H. unfold mbind, M_bind. by rewrite H. Qed.

Lemma bind_Raised (m : M A) (k : A → M B) w e w' :
  m w = (Raised e, w') → (m ≫= k) w = (Raised e, w').
Proof. intros H. unfold mbind, M_bind. by rewrite H. Qed.

Lemma bind_inv (m : M A) (k : A → M B) w r w' :
  (m ≫= k) w = (r, w') →
  (∃ a w1, m w = (Returned a, w1) ∧ k a w1 = (r, w'))
  ∨ (∃ e, m w = (Raised e, w') ∧ r = Raised e).
Proof.
  unfold mbind, M_bind. destruct (m w) as [[a|e] w1] eqn:E.
  - intros H. left. eauto.
  - intros [= <- <-]. right. eauto.
Qed.

Section rel.
Variable R : world → world → Prop.
Hypothesis R_refl : ∀ w, R w w.
Hypothesis R_trans : ∀ w1 w2 w3, R w1 w2 → R w2 w3 → R w1 w3.

Lemma respects_ret (a : A) : respects R (mret a).
Proof. intros w. apply R_refl. Qed.

Lemma respects_raise e : respects R (raise e : M A).
Proof. intros w. apply R_refl. Qed.

Lemma respects_bind (m : M A) (k : A → M B) :
  respects R m → (∀ a, respects R (k a)) → respects R (m ≫= k).
Proof.
  intros Hm Hk w. specialize (Hm w). unfold mbind, M_bind.
  destruct (m w) as [[a|e] w1]; simpl in *; [|done].
  eapply R_trans; [done | apply Hk].
Qed.

Lemma respects_try_except (m : M A) handles (h : exn → M A) :
  respects R m → (∀ e, respects R (h e)) → respects R (try_except m handles h).
Proof.
  intros Hm Hh w. specialize (Hm w). unfold try_except.
  destruct (m w) as [[a|e] w1]; simpl in *; [done|].
  destruct (handles e); [|done].
  eapply R_trans; [done | apply Hh].
Qed.

Lemma respects_try_finally (m : M A) (c : M unit) :
  respects R m → respects R c → respects R (try_finally m c).
Proof.
  intros Hm Hc w. specialize (Hm w). unfold try_finally.
  destruct (m w) as [[a|e] w1]; simpl in *;
    specialize (Hc w1); destruct (c w1) as [[[]|e'] w2]; simpl in *; eauto.
Qed.
End rel.

Lemma raises_only_ret P (a : A) : raises_only P (mret a).
Proof. by intros w e w' [=]. Qed.

Lemma raises_only_raise (P : exn → Prop) e : P e → raises_only P (raise e : M A).
Proof. by intros H w e' w' [= <- _]. Qed.

Lemma raises_only_bind P (m : M A) (k : A → M B) :
  raises_only P m → (∀ a, raises_only P (k a)) → raises_only P (m ≫= k).
Proof.
  intros Hm Hk w e w' [(a & w1 & _ & H)|(e' & H & [= <-])]%bind_inv.
  - by eapply Hk.
  - by eapply Hm.
Qed.

Lemma raises_only_try_except P (m : M A) handles (h : exn → M A) :
  raises_only (λ e, handles e = true ∨ P e) m →
  (∀ e, handles e = true → raises_only P (h e)) →
  raises_only P (try_except m handles h).
Proof.
  intros Hm Hh w e w'. unfold try_except.
  destruct (m w) as [[a|e1] w1] eqn:E; [done|].
  destruct (handles e1) eqn:Hd.
  - intros H. by eapply Hh.
  - intros [= <- <-]. apply Hm in E as [?|?]; [congruence | done].
Qed.

Lemma raises_only_try_finally P (m : M A) (c : M unit) :
  raises_only P m → raises_only P c → raises_only P (try_finally m c).
Proof.
  intros Hm Hc w e w'. unfold try_finally.
  destruct (m w) as [[a|e1] w1] eqn:E; destruct (c w1) as [[[]|e2] w2] eqn:E2; intros [= <- <-].
  - by eapply Hc.
  - by eapply Hm.
  - by eapply Hc.
Qed.

Lemma raises_only_weaken (P Q : exn → Prop) (m : M A) :
  (∀ e, P e → Q e) → raises_only P m → raises_only Q m.
Proof. intros HPQ Hm w e w' H. eapply HPQ, Hm, H. Qed.

End monad.

Lemma grows_refl w : grows w w.
Proof. apply extends_refl. Qed.

Lemma grows_trans w1 w2 w3 : grows w1 w2 → grows w2 w3 → grows w1 w3.
Proof. apply extends_trans. Qed.

Lemma logs_refl P w : logs P w w.
Proof. exists []. by rewrite app_nil_r. Qed.

Lemma logs_trans P w1 w2 w3 : logs P w1 w2 → logs P w2 w3 → logs P w1 w3.
Proof.
  intros (e1 & E1 & F1) (e2 & E2 & F2). exists (e1 ++ e2). split.
  - by rewrite E2, E1, <- app_assoc.
  - by apply Forall_app.
Qed.

Lemma sys_grows {A} c (f : filesystem → result (filesystem * A)) :
  (∀ fs fs' a, f fs = Ok (fs', a) → extends fs fs') → respects grows (sys c f).
Proof.
  intros H w. unfold sys, grows. destruct (f (fs w)) as [[fs' a]|e] eqn:E; simpl.
  - by eapply H.
  - apply extends_refl.
Qed.

Lemma sys_logs {A} (P : syscall → Prop) c (f : filesystem → result (filesystem * A)) :
  P c → respects (logs P) (sys c f).
Proof.
  intros H w. exists [(c, fs w)]. unfold sys.
  destruct (f (fs w)) as [[fs' a]|e]; simpl; (split; [done | by repeat constructor]).
Qed.

Lemma sys_raises {A} c (f : filesystem → result (filesystem * A)) :
  raises_only (λ e, is_OSError e = true) (sys c f).
Proof.
  intros w e w'. unfold sys. destruct (f (fs w)) as [[fs' a]|e']; [done|]. by intros [= <- _].
Qed.

(** ** [os] *)

Section os_calls.
Implicit Types (w : world) (p name : pystr).

Lemma path_exists_eq p w :
  os.path_exists p w
  = (Returned (match vfs.stat (fs w) p with Ok _ => true | Error _ => false end),
     logged w (SysStat p)).
Proof.
  unfold os.path_exists, try_except, os.stat, mbind, M_bind, sys.
  by destruct (vfs.stat (fs w) p).
Qed.

Lemma path_isdir_eq p w :
  os.path_isdir p w
  = (Returned (match vfs.stat (fs w) p with Ok (Dir _) => true | _ => false end),
     logged w (SysStat p)).
Proof.
  unfold os.path_isdir, try_except, os.stat, mbind, M_bind, sys.
  by destruct (vfs.stat (fs w) p) as [[]|].
Qed.

Lemma mkdir_eq p w :
  os.mkdir p w
  = match vfs.mkdir (fs w) p with
    | Ok fs' => (Returned tt, {| fs := fs'; log := log w ++ [(SysMkdir p, fs w)] |})
    | Error e => (Raised (OSError e), logged w (SysMkdir p))
    end.
Proof. unfold os.mkdir, sys. by destruct (vfs.mkdir (fs w) p). Qed.

Lemma path_exists_grows p : respects grows (os.path_exists p).
Proof. intros w. rewrite path_exists_eq. apply extends_refl. Qed.

Lemma path_isdir_grows p : respects grows (os.path_isdir p).
Proof. intros w. rewrite path_isdir_eq. apply extends_refl. Qed.

Lemma mkdir_grows p : respects grows (os.mkdir p).
Proof.
  apply sys_grows. intros fs fs' [] H.
  destruct (vfs.mkdir fs p) eqn:E; [|done]. injection H as <-. by eapply mkdir_extends.
Qed.

Lemma path_exists_logs p : respects (logs is_dir_call) (os.path_exists p).
Proof. intros w. rewrite path_exists_eq. exists [(SysStat p, fs w)]. split; [done | by repeat constructor]. Qed.

Lemma path_isdir_logs p : respects (logs is_dir_call) (os.path_isdir p).
Proof. intros w. rewrite path_isdir_eq. exists [(SysStat p, fs w)]. split; [done | by repeat constructor]. Qed.

Lemma mkdir_logs p : respects (logs is_dir_call) (os.mkdir p).
Proof. by apply sys_logs. Qed.

Lemma path_exists_raises P p : raises_only P (os.path_exists p).
Proof. intros w e w'. by rewrite path_exists_eq. Qed.

Lemma path_isdir_raises P p : raises_only P (os.path_isdir p).
Proof. intros w e w'. by rewrite path_isdir_eq. Qed.

Lemma makedirs_rec_S depth name exist_ok :
  os.makedirs_rec (S depth) name exist_ok
  = (let '(head, tail) := posixpath.split name in
     let '(head, tail) :=
       if bool_decide (tail = []) then posixpath.split head else (head, tail) in
     returned ←
       (if bool_decide (head ≠ []) && bool_decide (tail ≠ [])
        then
          there ← os.path_exists head;
          if negb there
          then
            try_except (os.makedirs_rec depth head exist_ok)
                       is_FileExistsError (λ _, mret tt);;
            mret (bool_decide (tail = os.curdir))
          else mret false
        else mret false);
     if (returned : bool) then mret tt
     else
       try_except (os.mkdir name) is_OSError
         (λ e, isdir ← os.path_isdir name;
               if negb exist_ok || negb isdir then raise e else mret tt)).
Proof. reflexivity. Qed.

(** Every run of [makedirs] keeps the directories there are and makes
    only [stat] and [mkdir] calls. *)
Lemma makedirs_rec_respects R depth name exist_ok :
  (∀ w, R w w) → (∀ w1 w2 w3, R w1 w2 → R w2 w3 → R w1 w3) →
  (∀ p, respects R (os.path_exists p)) →
  (∀ p, respects R (os.path_isdir p)) →
  (∀ p, respects R (os.mkdir p)) →
  respects R (os.makedirs_rec depth name exist_ok).
Proof.
  intros Rr Rt He Hi Hm. revert name.
  induction depth as [|depth IH]; intros name; [by apply respects_raise|].
  rewrite makedirs_rec_S.
  destruct (posixpath.split name) as [h0 t0].
  destruct (if bool_decide (t0 = []) then _ else _) as [head tail].
  apply respects_bind; [done | |].
  - destruct (_ && _); [|by apply respects_ret].
    apply respects_bind; [done | done |]. intros there.
    destruct (negb there); [|by apply respects_ret].
    apply respects_bind; [done | | intros; by apply respects_ret].
    apply respects_try_except; [done | done | intros; by apply respects_ret].
  - intros returned. destruct returned; [by apply respects_ret|].
    apply respects_try_except; [done | done |]. intros e.
    apply respects_bind; [done | done |]. intros isdir.
    destruct (_ || _); [by apply respects_raise | by apply respects_ret].
Qed.

Lemma makedirs_rec_grows depth name exist_ok :
  respects grows (os.makedirs_rec depth name exist_ok).
Proof.
  apply makedirs_rec_respects;
    [apply grows_refl | apply grows_trans | apply path_exists_grows
    | apply path_isdir_grows | apply mkdir_grows].
Qed.

Lemma makedirs_rec_logs depth name exist_ok :
  respects (logs is_dir_call) (os.makedirs_rec depth name exist_ok).
Proof.
  apply makedirs_rec_respects;
    [apply logs_refl | apply logs_trans | apply path_exists_logs
    | apply path_isdir_logs | apply mkdir_logs].
Qed.

(** With a bound above the length of the name the recursion never runs
    out: all [makedirs] raises is an [OSError]. *)
Lemma makedirs_rec_raises depth name exist_ok :
  (length name < depth)%nat →
  raises_only (λ e, is_OSError e = true) (os.makedirs_rec depth name exist_ok).
Proof.
  revert name. induction depth as [|depth IH]; intros name Hlen; [lia|].
  rewrite makedirs_rec_S.
  pose proof (split_length name) as L0.
  destruct (posixpath.split name) as [h0 t0]. simpl in L0.
  assert (∀ head tail,
    (if bool_decide (t0 = []) then posixpath.split h0 else (h0, t0)) = (head, tail) →
    tail ≠ [] → (length head < length name)%nat) as Hshort.
  { intros head tail E Ht. case_bool_decide as Et0.
    - pose proof (split_length h0) as L1. rewrite E in L1. simpl in L1.
      destruct tail; [done|]. simpl in L1. lia.
    - injection E as <- <-. destruct t0; [done|]. simpl in L0. lia. }
  destruct (if bool_decide (t0 = []) then _ else _) as [head tail].
  apply raises_only_bind.
  - destruct (bool_decide (head ≠ [])); simpl; [|apply raises_only_ret].
    case_bool_decide as Ht; [|apply raises_only_ret].
    apply raises_only_bind; [apply path_exists_raises|]. intros there.
    destruct (negb there); [|apply raises_only_ret].
    apply raises_only_bind; [|intros; apply raises_only_ret].
    apply raises_only_try_except; [|intros; apply raises_only_ret].
    eapply raises_only_weaken; [|apply IH]; [by right|].
    specialize (Hshort head tail eq_refl Ht). lia.
  - intros returned. destruct returned; [apply raises_only_ret|].
    apply raises_only_try_except.
    + eapply raises_only_weaken; [|apply sys_raises]. by left.
    + intros e He. apply raises_only_bind; [apply path_isdir_raises|].
      intros isdir. destruct (_ || _); [by apply raises_only_raise | apply raises_only_ret].
Qed.

End os_calls.

Section under_config_dir.
Implicit Types (fs : filesystem) (cfg r : pystr) (w : world).

Lemma walk_snoc_Ok fs s cs c cur :
  vfs.walk fs s (cs ++ [c]) = Ok cur →
  ∃ cur1 wr, vfs.walk fs s cs = Ok cur1 ∧ cur = vfs.target cur1 c
             ∧ nodes fs !! cur = Some (Dir wr).
Proof.
  rewrite walk_app. destruct (vfs.walk fs s cs) as [cur1|]; [|done]. simpl.
  destruct (vfs.enter fs cur1 c) as [cur2|] eqn:E; [|done].
  intros [= <-]. apply enter_Ok in E as [-> [wr Hwr]]. eauto.
Qed.

Lemma prefix_rel_nonempty cfg r : r ≠ [] → dir_prefix cfg ++ r ≠ [].
Proof. intros Hr E. by apply app_eq_nil in E as [_ ?]. Qed.

(** Resolution of a relative path [r] taken under the configuration
    directory. *)
Lemma lookup_parent_under fs cfg r init l :
  r ≠ [] → PyStr.startswith r posixpath.sep = false →
  vfs.components r = init ++ [l] →
  vfs.lookup_parent fs (dir_prefix cfg ++ r)
  = match vfs.walk fs (vfs.start fs cfg) (vfs.components cfg ++ init) with
    | Ok cur => Ok (cur, Some l)
    | Error e => Error e
    end.
Proof.
  intros Hr Hs Hc. unfold vfs.lookup_parent.
  rewrite bool_decide_eq_false_2 by (by apply prefix_rel_nonempty).
  by rewrite components_prefix, Hc, app_assoc, unsnoc_snoc, start_prefix.
Qed.

Lemma stat_under_dir fs cfg r init l wr :
  r ≠ [] → PyStr.startswith r posixpath.sep = false →
  vfs.components r = init ++ [l] →
  vfs.stat fs (dir_prefix cfg ++ r) = Ok (Dir wr) ↔
  ∃ cur, vfs.walk fs (vfs.start fs cfg) (vfs.components cfg ++ init) = Ok cur
         ∧ nodes fs !! vfs.target cur l = Some (Dir wr).
Proof.
  intros Hr Hs Hc. unfold vfs.stat. rewrite (lookup_parent_under _ _ _ init l) by done.
  destruct (vfs.walk _ _ _) as [cur|e]; simpl.
  - destruct (nodes fs !! vfs.target cur l) as [[w'|w' d]|] eqn:E.
    + split; [intros [= ->]; eauto | intros (? & [= <-] & H); congruence].
    + split; [by destruct (PyStr.endswith _ _) | intros (? & [= <-] & H); congruence].
    + split; [done | intros (? & [= <-] & H); congruence].
  - split; [done | by intros (? & ? & _)].
Qed.

(** When the file of a path under the configuration directory can be
    looked up, the directory before its last name is there. *)
Lemma parent_is_dir fs cfg r r' init l l' cur :
  r ≠ [] → PyStr.startswith r posixpath.sep = false →
  r' ≠ [] → PyStr.startswith r' posixpath.sep = false →
  vfs.components r = (init ++ [l]) ++ [l'] →
  vfs.components r' = init ++ [l] →
  vfs.lookup_parent fs (dir_prefix cfg ++ r) = Ok (cur, Some l') →
  ∃ wr, vfs.stat fs (dir_prefix cfg ++ r') = Ok (Dir wr).
Proof.
  intros Hr Hs Hr' Hs' Hc Hc'. rewrite (lookup_parent_under _ _ _ (init ++ [l]) l') by done.
  destruct (vfs.walk _ _ _) as [cur0|] eqn:W; [|done]. intros [= ->].
  rewrite app_assoc in W. apply walk_snoc_Ok in W as (cur1 & wr & W & -> & Hn).
  exists wr. apply (stat_under_dir _ _ _ init l); eauto.
Qed.

End under_config_dir.

Section makedirs.
Implicit Types (w : world) (name head tail : pystr).

Lemma stat_dir_mkdir fs p wr : vfs.stat fs p = Ok (Dir wr) → vfs.mkdir fs p = Error EEXIST.
Proof.
  unfold vfs.stat, vfs.mkdir.
  destruct (vfs.lookup_parent fs p) as [[cur l]|]; [|done].
  destruct (vfs.special l); [done|].
  by destruct (nodes fs !! vfs.final cur l).
Qed.

(** What [makedirs] leaves behind when it returns: the directory. *)
Lemma makedirs_rec_made depth name head tail w w' :
  posixpath.split name = (head, tail) → tail ≠ [] → tail ≠ os.curdir →
  os.makedirs_rec (S depth) name true w = (Returned tt, w') →
  ∃ wr, vfs.stat (fs w') name = Ok (Dir wr).
Proof.
  intros Hs Ht Hc. rewrite makedirs_rec_S, Hs.
  rewrite (bool_decide_eq_false_2 (tail = [])) by done.
  intros [(returned & w1 & H1 & H2)|(e & _ & [=])]%bind_inv.
  assert (returned = false) as ->.
  { destruct (_ && _); [|by injection H1].
    apply bind_inv in H1 as [(there & w2 & _ & H1)|(e & _ & [=])].
    destruct (negb there); [|by injection H1].
    apply bind_inv in H1 as [(? & w3 & _ & H1)|(e & _ & [=])].
    injection H1 as <- _. by apply bool_decide_eq_false_2. }
  revert H2. unfold try_except. rewrite mkdir_eq.
  destruct (vfs.mkdir (fs w1) name) as [fs'|e] eqn:E.
  - intros [= <-]. simpl. eauto using mkdir_stat.
  - simpl. unfold mbind, M_bind. rewrite path_isdir_eq. simpl.
    destruct (vfs.stat (fs w1) name) as [[wr|wr d]|e'] eqn:S; simpl; [|done..].
    intros [= <-]. simpl. eauto.
Qed.

(** [makedirs] on a directory that is there: one look at its parent, one
    refused [mkdir], one look at the directory, and no change. *)
Lemma makedirs_rec_present depth name head tail w wr n :
  posixpath.split name = (head, tail) → tail ≠ [] → head ≠ [] →
  vfs.stat (fs w) head = Ok n →
  vfs.stat (fs w) name = Ok (Dir wr) →
  os.makedirs_rec (S depth) name true w
  = (Returned tt,
     {| fs := fs w;
        log := log w ++ [(SysStat head, fs w); (SysMkdir name, fs w); (SysStat name, fs w)] |}).
Proof.
  intros Hs Ht Hh Hhead Hname. rewrite makedirs_rec_S, Hs.
  rewrite (bool_decide_eq_false_2 (tail = [])) by done.
  rewrite !bool_decide_eq_true_2 by done. simpl.
  unfold mbind at 1, M_bind at 1. unfold mbind at 1, M_bind at 1.
  rewrite path_exists_eq, Hhead. simpl.
  unfold mret, M_ret. unfold try_except. rewrite mkdir_eq. simpl.
  rewrite (stat_dir_mkdir _ _ _ Hname). simpl.
  unfold mbind, M_bind. rewrite path_isdir_eq. simpl. rewrite Hname. simpl.
  unfold logged. simpl. by rewrite <- !app_assoc.
Qed.

End makedirs.

(** ** Text files and the encoder's output *)

Section ascii.
Implicit Types (s t : pystr) (c : codepoint) (enc : codec).

Lemma encode_ascii enc s : ascii_text s → io.encode enc s = Some (ascii_bytes s).
Proof.
  induction 1 as [|c s Hc _ IH]; [done|]. simpl. rewrite IH.
  assert (io.encode_codepoint enc c = Some [io.byte_of_N c]) as ->; [|done].
  destruct enc; simpl.
  - by apply N.ltb_lt in Hc as ->.
  - by apply N.ltb_lt in Hc as ->.
  - assert (c < 256) as ->%N.ltb_lt by lia. done.
Qed.

Lemma to_N_byte_of_N c : c < 256 → Byte.to_N (io.byte_of_N c) = c.
Proof.
  intros Hc. unfold io.byte_of_N. destruct (Byte.of_N c) as [b|] eqn:E.
  - by apply Byte.to_of_N.
  - apply Byte.of_N_None_iff in E. lia.
Qed.

Lemma decode_ascii_bytes s : ascii_text s → reader.decode_ascii (ascii_bytes s) = Some s.
Proof.
  induction 1 as [|c s Hc _ IH]; [done|]. simpl.
  rewrite to_N_byte_of_N by lia. rewrite IH.
  by apply N.ltb_lt in Hc as ->.
Qed.

Lemma ascii_bytes_app s t : ascii_bytes (s ++ t) = ascii_bytes s ++ ascii_bytes t.
Proof. apply map_app. Qed.

Lemma ascii_text_app s t : ascii_text s → ascii_text t → ascii_text (s ++ t).
Proof. apply Forall_app_2. Qed.

Lemma ascii_text_concat (l : list pystr) : Forall ascii_text l → ascii_text (concat l).
Proof. induction 1; simpl; [constructor | by apply ascii_text_app]. Qed.

Lemma ascii_py (l : string) :
  forallb (λ c, c <? 128) (py l) = true → ascii_text (py l).
Proof. intros H. apply Forall_forall. intros c Hc%list_elem_of_In. rewrite forallb_forall in H. by apply N.ltb_lt, H. Qed.

Lemma hexdigit_ascii d : d < 16 → json.hexdigit d < 128.
Proof. intros Hd. unfold json.hexdigit. destruct (d <? 10); lia. Qed.

Lemma hex_digits_ascii fuel n acc : ascii_text acc → ascii_text (json.hex_digits fuel n acc).
Proof.
  revert n acc. induction fuel as [|fuel IH]; intros n acc Hacc; simpl; [done|].
  destruct (n =? 0); [done|]. apply IH. constructor; [|done].
  apply hexdigit_ascii. by apply N.mod_lt.
Qed.

Lemma format_04x_ascii n : ascii_text (json.format_04x n).
Proof.
  unfold json.format_04x. apply ascii_text_app.
  - apply Forall_replicate. done.
  - apply hex_digits_ascii. constructor.
Qed.

Lemma encode_char_ascii c : ascii_text (json.encode_char c).
Proof.
  unfold json.encode_char. destruct (json.needs_escape c) eqn:E.
  - unfold json.replace.
    repeat (match goal with |- ascii_text (if ?b then _ else _) => destruct b end);
      try (by repeat constructor);
      repeat (apply ascii_text_app; [by repeat constructor || apply format_04x_ascii|]);
      apply format_04x_ascii.
  - unfold json.needs_escape in E. repeat constructor.
    apply orb_false_iff in E as [_ E%N.ltb_ge]. lia.
Qed.

Lemma encode_basestring_ascii_ascii s : ascii_text (json.encode_basestring_ascii s).
Proof.
  unfold json.encode_basestring_ascii.
  apply ascii_text_app; [by repeat constructor|].
  apply ascii_text_app; [|by repeat constructor].
  apply ascii_text_concat, Forall_map, Forall_forall. intros c _. apply encode_char_ascii.
Qed.

Lemma iterencode_value_ascii v : ascii_text (json.iterencode_value v).
Proof. destruct v; [by repeat constructor | apply encode_basestring_ascii_ascii]. Qed.

Lemma times_space_ascii n m : ascii_text (PyStr.times (PyStr.times (py " ") n) m).
Proof.
  unfold PyStr.times. apply ascii_text_concat, Forall_replicate.
  apply ascii_text_concat, Forall_replicate. by repeat constructor.
Qed.

Lemma item_separator_ascii ind : ascii_text (json.item_separator (json.make_encoder ind)).
Proof. destruct ind; by repeat constructor. Qed.

Lemma iterencode_items_ascii ind sep first d :
  ascii_text sep →
  Forall ascii_text (json.iterencode_items (json.make_encoder ind) sep first d).
Proof.
  intros Hsep. revert first. induction d as [|[k v] d IH]; intros first; simpl; [constructor|].
  apply Forall_app. split; [destruct first; by repeat constructor|].
  apply Forall_cons_2; [apply encode_basestring_ascii_ascii|].
  apply Forall_cons_2; [by repeat constructor|].
  apply Forall_cons_2; [apply iterencode_value_ascii | apply IH].
Qed.

(** With [ensure_ascii] left on, all the encoder yields is ASCII. *)
Lemma iterencode_ascii ind d :
  Forall ascii_text (json.iterencode (json.make_encoder ind) d).
Proof.
  unfold json.iterencode, json.iterencode_dict.
  destruct (bool_decide (d = [])); [by repeat constructor|].
  destruct ind as [n|]; simpl.
  - assert (∀ m, ascii_text (json.py_newline ++ PyStr.times (PyStr.times (py " ") n) m)) as Hnl.
    { intros m. apply ascii_text_app; [by repeat constructor | apply times_space_ascii]. }
    apply Forall_cons_2; [by repeat constructor|].
    apply Forall_cons_2; [apply Hnl|].
    apply Forall_app. split.
    + apply iterencode_items_ascii, (ascii_text_app [44]); [by repeat constructor | apply Hnl].
    + apply Forall_cons_2; [apply Hnl | by repeat constructor].
  - apply Forall_cons_2; [by repeat constructor|].
    apply Forall_app. split; [|by repeat constructor].
    apply iterencode_items_ascii. by repeat constructor.
Qed.

End ascii.

Section files.
Implicit Types (w : world) (fs : filesystem) (f : io.TextIO) (loc : location).

Lemma open_trunc_Ok fs p fs' loc :
  vfs.open_trunc fs p = Ok (fs', loc) →
  ∃ cur c, vfs.lookup_parent fs p = Ok (cur, Some c)
           ∧ loc = vfs.target cur c
           ∧ fs' = vfs.put fs loc (File true [])
           ∧ (∀ wr, nodes fs !! loc ≠ Some (Dir wr))
           ∧ PyStr.endswith p posixpath.sep = false.
Proof.
  unfold vfs.open_trunc.
  destruct (vfs.lookup_parent fs p) as [[cur [c|]]|]; [|done..].
  destruct (vfs.special (Some c)); [done|].
  destruct (PyStr.endswith p posixpath.sep); [done|]. simpl.
  destruct (nodes fs !! vfs.target cur c) as [[wr|[] d]|] eqn:E; [done| |done|].
  - intros [= <- <-]. exists cur, c. by rewrite E.
  - destruct (vfs.may_create fs cur); [|done].
    intros [= <- <-]. exists cur, c. by rewrite E.
Qed.

Lemma put_put fs loc n n' : vfs.put (vfs.put fs loc n) loc n' = vfs.put fs loc n'.
Proof. unfold vfs.put. simpl. by rewrite insert_insert_eq. Qed.

Lemma put_same fs loc n : nodes fs !! loc = Some n → vfs.put fs loc n = fs.
Proof. intros H. destruct fs as [ns c]. unfold vfs.put. simpl in *. by rewrite insert_id. Qed.

Lemma write_ascii f s w wr d :
  ascii_text s → nodes (fs w) !! io.file_loc f = Some (File wr d) →
  io.write f s w
  = (Returned tt,
     {| fs := vfs.put (fs w) (io.file_loc f) (File wr (d ++ ascii_bytes s));
        log := log w ++ [(SysWrite (io.file_loc f) (ascii_bytes s), fs w)] |}).
Proof.
  intros Hs Hn. unfold io.write. rewrite (encode_ascii _ _ Hs).
  unfold sys, vfs.append. by rewrite Hn.
Qed.

(** Writing ASCII chunks to an open file appends them all, one [write]
    call each. *)
Lemma write_chunks_ascii f chunks w wr d :
  Forall ascii_text chunks → nodes (fs w) !! io.file_loc f = Some (File wr d) →
  ∃ w', json.write_chunks f chunks w = (Returned tt, w')
        ∧ fs w' = vfs.put (fs w) (io.file_loc f) (File wr (d ++ ascii_bytes (concat chunks)))
        ∧ ∃ evs, log w' = log w ++ evs
                 ∧ map fst evs = map (λ c, SysWrite (io.file_loc f) (ascii_bytes c)) chunks.
Proof.
  intros Hc. revert w d. induction Hc as [|c chunks Hc _ IH]; intros w d Hn.
  - exists w. simpl. split; [done|]. split.
    + rewrite app_nil_r. symmetry. by apply put_same.
    + exists []. by rewrite app_nil_r.
  - simpl. unfold mbind, M_bind. rewrite (write_ascii _ _ _ wr d) by done.
    destruct (IH {| fs := vfs.put (fs w) (io.file_loc f) (File wr (d ++ ascii_bytes c));
                    log := log w ++ [(SysWrite (io.file_loc f) (ascii_bytes c), fs w)] |}
                 (d ++ ascii_bytes c)) as (w' & E & Hfs & evs & Hlog & Hevs).
    { simpl. apply lookup_insert_eq. }
    exists w'. split; [done|]. split.
    + rewrite Hfs. simpl. by rewrite put_put, ascii_bytes_app, app_assoc.
    + eexists. split; [by rewrite Hlog; simpl; rewrite <- app_assoc|]. simpl. by rewrite Hevs.
Qed.

End files.

(** ** The script *)

Section script.
Implicit Types (h : host) (w : world).

(** The course of a run: [makedirs], then the file is opened, written
    chunk by chunk and closed. Nothing is caught on the way. *)
Lemma run_cases h (fs0 : filesystem) :
  let path := settings_path (config_dir h) in
  match os.makedirs (posixpath.dirname path) true {| fs := fs0; log := [] |} with
  | (Raised e, w1) => run h fs0 = (Raised e, w1)
  | (Returned _, w1) =>
      match vfs.open_trunc (fs w1) path with
      | Error e => run h fs0 = (Raised (OSError e), logged w1 (SysOpen path))
      | Ok (_, loc) =>
          ∃ w', run h fs0 = (Returned tt, w')
                ∧ fs w' = vfs.put (fs w1) loc (File true (ascii_bytes (settings_text h)))
                ∧ ∃ evs, log w' = log w1 ++ (SysOpen path, fs w1) :: evs
                         ∧ map fst evs
                           = map (λ c, SysWrite loc (ascii_bytes c))
                                 (json.iterencode (json.make_encoder (Some 2%nat))
                                    (settings_data (environ h)))
                             ++ [SysClose loc]
      end
  end.
Proof.
  intros path. unfold run, setup. fold path.
  destruct (os.makedirs _ _ _) as [[[]|e] w1] eqn:Emk; [|by apply bind_Raised].
  assert (∀ r, io.with_open_w (locale_encoding h) path
                 (λ f, json.dump (settings_data (environ h)) f (Some 2%nat)) w1 = r →
               (os.makedirs (posixpath.dirname path) true
                  ≫= λ _, io.with_open_w (locale_encoding h) path
                            (λ f, json.dump (settings_data (environ h)) f (Some 2%nat)))
                 {| fs := fs0; log := [] |} = r) as Hrun.
  { intros r <-. unfold mbind at 1, M_bind at 1. by rewrite Emk. }
  unfold io.with_open_w, io.open_w in Hrun.
  unfold mbind at 1, M_bind at 1 in Hrun. unfold mbind at 1, M_bind at 1 in Hrun.
  unfold sys at 1 in Hrun.
  destruct (vfs.open_trunc (fs w1) path) as [[fs2 loc]|e] eqn:O; [|by apply Hrun].
  apply open_trunc_Ok in O as (cur & c & _ & -> & -> & _ & _).
  unfold mret at 1, M_ret at 1 in Hrun. unfold try_finally, json.dump in Hrun.
  set (f := {| io.file_loc := vfs.target cur c; io.file_enc := locale_encoding h |}) in *.
  set (w2 := {| fs := vfs.put (fs w1) (vfs.target cur c) (File true []);
                log := log {| fs := fs w1; log := log w1 ++ [(SysOpen path, fs w1)] |} |}) in *.
  destruct (write_chunks_ascii f
              (json.iterencode (json.make_encoder (Some 2%nat)) (settings_data (environ h)))
              w2 true []) as (w3 & E & Hfs & evs & Hlog & Hevs).
  { apply iterencode_ascii. }
  { simpl. apply lookup_insert_eq. }
  rewrite E in Hrun. unfold io.close, sys in Hrun.
  specialize (Hrun _ eq_refl). cbv beta iota in Hrun.
  eexists. split; [exact Hrun|]. cbn [fs log]. split.
  - rewrite Hfs. subst w2 f. cbn [fs io.file_loc app]. rewrite put_put.
    by unfold settings_text, json.dumps.
  - exists (evs ++ [(SysClose (vfs.target cur c), fs w3)]). split.
    + rewrite Hlog. subst w2. cbn [log]. by rewrite <- !app_assoc.
    + rewrite map_app, Hevs. by subst f.
Qed.

End script.

(** ** The reader undoes the encoder *)

Section hex.

Lemma all_from_spec k n f m :
  all_from k n f = true → n ≤ m → m < n + N.of_nat k → f m = true.
Proof.
  revert n. induction k as [|k IH]; intros n; simpl; [lia|].
  intros [Hn Hr]%andb_true_iff Hle Hlt.
  destruct (decide (m = n)) as [->|]; [done|].
  apply (IH (N.succ n)); [done | lia | lia].
Qed.

Lemma format_04x_reads_back : all_from (N.to_nat 65536) 0 reads_back = true.
Proof. vm_compute. reflexivity. Qed.

Lemma decode_uXXXX_app l v r :
  reader.decode_uXXXX l = Some (v, []) → reader.decode_uXXXX (l ++ r) = Some (v, r).
Proof.
  destruct l as [|a [|b [|c [|d l]]]]; try done. simpl.
  destruct (reader.hexval a), (reader.hexval b), (reader.hexval c), (reader.hexval d); try done.
  by intros [= <- ->].
Qed.

(** Four digits written by the encoder read back as the number. *)
Lemma decode_format_04x n r :
  n < 65536 → reader.decode_uXXXX (json.format_04x n ++ r) = Some (n, r).
Proof.
  intros Hn. apply decode_uXXXX_app.
  pose proof (all_from_spec _ _ _ n format_04x_reads_back) as H.
  unfold reads_back in H.
  destruct (reader.decode_uXXXX (json.format_04x n)) as [[v [|]]|].
  - rewrite N.eqb_eq in H. rewrite H; [done | lia | lia].
  - discriminate H; lia.
  - discriminate H; lia.
Qed.

End hex.

Section surrogates.

Lemma lor_disjoint a b : N.land a b = 0 → N.lor a b = a + b.
Proof. intros H. by rewrite <- N.lxor_lor, N.add_nocarry_lxor. Qed.

Lemma land_1023 b : N.land b 1023 = b mod 1024.
Proof. change 1023 with (N.ones 10). by rewrite N.land_ones. Qed.

Lemma pair_high n :
  n < 1048576 → N.lor 55296 (N.land (N.shiftr n 10) 1023) = 55296 + n / 1024.
Proof.
  intros Hn. rewrite lor_disjoint.
  - rewrite land_1023, N.shiftr_div_pow2. change (2 ^ 10) with 1024.
    rewrite N.mod_small; [done|]. apply N.Div0.div_lt_upper_bound. lia.
  - rewrite (N.land_comm (N.shiftr n 10)), N.land_assoc.
    change (N.land 55296 1023) with 0. apply N.land_0_l.
Qed.

Lemma pair_low n : N.lor 56320 (N.land n 1023) = 56320 + n mod 1024.
Proof.
  rewrite lor_disjoint; [by rewrite land_1023|].
  rewrite (N.land_comm n), N.land_assoc.
  change (N.land 56320 1023) with 0. apply N.land_0_l.
Qed.

Lemma pair_join a b : b < 1024 → N.lor (N.shiftl a 10) b = a * 1024 + b.
Proof.
  intros Hb. rewrite lor_disjoint; [by rewrite N.shiftl_mul_pow2|].
  rewrite <- (N.mod_small b 1024) by done. rewrite <- land_1023.
  rewrite (N.land_comm b), N.land_assoc, land_1023.
  rewrite N.shiftl_mul_pow2. change (2 ^ 10) with 1024.
  rewrite N.Div0.mod_mul. apply N.land_0_l.
Qed.

(** The two halves the encoder writes for a character above the basic
    plane put back together. *)
Lemma pair_roundtrip c :
  65536 ≤ c → c < 1114112 →
  let n := c - 65536 in
  let s1 := N.lor 55296 (N.land (N.shiftr n 10) 1023) in
  let s2 := N.lor 56320 (N.land n 1023) in
  reader.is_high_surrogate s1 = true ∧ reader.is_low_surrogate s2 = true
  ∧ s1 < 65536 ∧ s2 < 65536
  ∧ 65536 + N.lor (N.shiftl (s1 - 55296) 10) (s2 - 56320) = c.
Proof.
  intros Hlo Hhi. cbv zeta. remember (c - 65536) as n eqn:En.
  assert (n < 1048576) as Hn by lia.
  rewrite pair_high by done. rewrite pair_low.
  assert (n / 1024 < 1024) as Hq by (apply N.Div0.div_lt_upper_bound; lia).
  assert (n mod 1024 < 1024) as Hr by (by apply N.mod_lt).
  pose proof (N.Div0.div_mod n 1024) as Hdm.
  remember (n / 1024) as q eqn:Eq. remember (n mod 1024) as r eqn:Er.
  unfold reader.is_high_surrogate, reader.is_low_surrogate.
  repeat split.
  - apply andb_true_iff. split; apply N.leb_le; lia.
  - apply andb_true_iff. split; apply N.leb_le; lia.
  - lia.
  - lia.
  - replace (55296 + q - 55296) with q by lia.
    replace (56320 + r - 56320) with r by lia.
    rewrite pair_join by done. lia.
Qed.

End surrogates.

Section scanstring.
Implicit Types (s R rest : pystr) (c : codepoint).

Lemma scan_quote fuel R : reader.scanstring (S fuel) (34 :: R) = Some ([], R).
Proof. reflexivity. Qed.

Lemma scan_plain fuel c R :
  c ≠ 34 → c ≠ 92 → 32 ≤ c →
  reader.scanstring (S fuel) (c :: R)
  = match reader.scanstring fuel R with
    | Some (r, rest) => Some (c :: r, rest)
    | None => None
    end.
Proof.
  intros H34 H92 H32. cbn [reader.scanstring].
  apply N.eqb_neq in H34 as ->. apply N.eqb_neq in H92 as ->.
  by apply N.ltb_ge in H32 as ->.
Qed.

Lemma scan_short fuel esc ch R :
  esc ≠ 117 → reader.unescape esc = Some ch →
  reader.scanstring (S fuel) (92 :: esc :: R)
  = match reader.scanstring fuel R with
    | Some (r, rest) => Some (ch :: r, rest)
    | None => None
    end.
Proof.
  intros He Hu. cbn [reader.scanstring].
  change (92 =? 34) with false. change (92 =? 92) with true. cbv iota.
  apply N.eqb_neq in He as ->. by rewrite Hu.
Qed.

Lemma scan_unicode fuel uni s2 s3 :
  reader.decode_uXXXX s2 = Some (uni, s3) →
  reader.scanstring (S fuel) (92 :: 117 :: s2)
  = match reader.scanstring fuel (reader.unicode_escape uni s3).2 with
    | Some (r, rest) => Some ((reader.unicode_escape uni s3).1 :: r, rest)
    | None => None
    end.
Proof.
  intros H. cbn [reader.scanstring].
  change (92 =? 34) with false. change (92 =? 92) with true.
  change (117 =? 117) with true. cbv iota. by rewrite H.
Qed.

Lemma expect_all_u R : reader.expect_all (py "\u") (92 :: 117 :: R) = Some R.
Proof. reflexivity. Qed.

Lemma high_not_low c : reader.is_high_surrogate c = true → reader.is_low_surrogate c = false.
Proof.
  unfold reader.is_high_surrogate, reader.is_low_surrogate.
  intros [_ H%N.leb_le]%andb_true_iff.
  apply andb_false_iff. left. apply N.leb_gt. lia.
Qed.

Lemma needs_escape_false c :
  json.needs_escape c = false → c ≠ 92 ∧ c ≠ 34 ∧ 32 ≤ c ∧ c ≤ 126.
Proof.
  unfold json.needs_escape.
  intros [[[H1%N.eqb_neq H2%N.eqb_neq]%orb_false_iff H3%N.ltb_ge]%orb_false_iff H4%N.ltb_ge]%orb_false_iff.
  done.
Qed.

(** The escape of a character that is no low surrogate is not taken for
    the second half of a pair. *)
Lemma low_escape_char c R :
  reader.is_low_surrogate c = false → c < 1114112 →
  reader.low_surrogate_escape (json.encode_char c ++ R) = None.
Proof.
  intros Hlow Hc. unfold json.encode_char.
  destruct (json.needs_escape c) eqn:E.
  - unfold json.replace.
    destruct (N.eqb_spec c 92) as [->|_]; [done|].
    destruct (N.eqb_spec c 34) as [->|_]; [done|].
    destruct (N.eqb_spec c 8) as [->|_]; [done|].
    destruct (N.eqb_spec c 12) as [->|_]; [done|].
    destruct (N.eqb_spec c 10) as [->|_]; [done|].
    destruct (N.eqb_spec c 13) as [->|_]; [done|].
    destruct (N.eqb_spec c 9) as [->|_]; [done|].
    destruct (N.ltb_spec c 65536) as [Lt|Ge].
    + rewrite <- app_assoc. change (py "\u") with [92; 117]. cbn [app].
      unfold reader.low_surrogate_escape. rewrite expect_all_u.
      by rewrite decode_format_04x, Hlow.
    + destruct (pair_roundtrip c Ge Hc) as (H1 & _ & L1 & _ & _). cbv zeta in H1, L1.
      rewrite <- !app_assoc. change (py "\u") with [92; 117]. cbn [app].
      unfold reader.low_surrogate_escape. rewrite expect_all_u.
      rewrite decode_format_04x by done. by rewrite (high_not_low _ H1).
  - apply needs_escape_false in E as (H92 & _).
    unfold reader.low_surrogate_escape. cbn [app reader.expect_all reader.expect].
    change (py "\u") with [92; 117]. cbn [reader.expect_all reader.expect].
    by apply N.eqb_neq in H92 as ->.
Qed.

Lemma low_escape_body s rest :
  match s with
  | c :: _ => reader.is_low_surrogate c = false ∧ c < 1114112
  | [] => True
  end →
  reader.low_surrogate_escape (body s ++ 34 :: rest) = None.
Proof.
  destruct s as [|c s]; [done|]. intros [Hlow Hc].
  unfold body. cbn [map concat]. rewrite <- app_assoc. by apply low_escape_char.
Qed.

(** One character of the encoder's output read back. *)
Lemma scan_char fuel c R :
  c < 1114112 →
  (reader.is_high_surrogate c = true → reader.low_surrogate_escape R = None) →
  reader.scanstring (S fuel) (json.encode_char c ++ R)
  = match reader.scanstring fuel R with
    | Some (r, rest) => Some (c :: r, rest)
    | None => None
    end.
Proof.
  intros Hc Hhigh. unfold json.encode_char.
  destruct (json.needs_escape c) eqn:E.
  - unfold json.replace.
    destruct (N.eqb_spec c 92) as [->|_]; [by apply (scan_short _ 92 92)|].
    destruct (N.eqb_spec c 34) as [->|_]; [by apply (scan_short _ 34 34)|].
    destruct (N.eqb_spec c 8) as [->|_]; [by apply (scan_short _ 98 8)|].
    destruct (N.eqb_spec c 12) as [->|_]; [by apply (scan_short _ 102 12)|].
    destruct (N.eqb_spec c 10) as [->|_]; [by apply (scan_short _ 110 10)|].
    destruct (N.eqb_spec c 13) as [->|_]; [by apply (scan_short _ 114 13)|].
    destruct (N.eqb_spec c 9) as [->|_]; [by apply (scan_short _ 116 9)|].
    destruct (N.ltb_spec c 65536) as [Lt|Ge].
    + rewrite <- app_assoc. change (py "\u") with [92; 117]. cbn [app].
      rewrite (scan_unicode _ c _ R) by (by apply decode_format_04x).
      unfold reader.unicode_escape.
      destruct (reader.is_high_surrogate c) eqn:Hh; [by rewrite Hhigh|done].
    + destruct (pair_roundtrip c Ge Hc) as (H1 & H2 & L1 & L2 & Hj).
      cbv zeta in H1, H2, L1, L2, Hj.
      rewrite <- !app_assoc. change (py "\u") with [92; 117]. cbn [app].
      erewrite scan_unicode by (by apply decode_format_04x).
      unfold reader.unicode_escape. rewrite H1.
      unfold reader.low_surrogate_escape. rewrite expect_all_u.
      rewrite decode_format_04x by done. rewrite H2. cbn [fst snd].
      by rewrite Hj.
  - apply needs_escape_false in E as (H92 & H34 & H32 & _).
    by apply scan_plain.
Qed.

Lemma wellformed_cons c s :
  wellformed (c :: s) = true →
  c < 1114112 ∧ wellformed s = true
  ∧ (reader.is_high_surrogate c = true →
     match s with
     | c' :: _ => reader.is_low_surrogate c' = false ∧ c' < 1114112
     | [] => True
     end).
Proof.
  cbn [wellformed].
  intros [[Hc%N.ltb_lt Hp%negb_true_iff]%andb_true_iff Hs]%andb_true_iff.
  split; [done|]. split; [done|]. intros Hh. rewrite Hh in Hp.
  destruct s as [|c' s']; [done|]. split; [done|].
  cbn [wellformed] in Hs.
  by apply andb_true_iff in Hs as [[Hc'%N.ltb_lt _]%andb_true_iff _].
Qed.

(** The reader's [scanstring] undoes [encode_basestring_ascii] on
    well-formed text. *)
Lemma scanstring_body s fuel rest :
  wellformed s = true → (length s < fuel)%nat →
  reader.scanstring fuel (body s ++ 34 :: rest) = Some (s, rest).
Proof.
  revert fuel. induction s as [|c s IH]; intros [|fuel] Hwf Hlen;
    try (cbn [length] in Hlen; lia).
  - apply scan_quote.
  - apply wellformed_cons in Hwf as (Hc & Hs & Hp).
    unfold body. cbn [map concat]. rewrite <- app_assoc. fold (body s).
    rewrite scan_char; [| done | intros Hh; by apply low_escape_body, Hp].
    rewrite IH; [done | done | cbn [length] in Hlen; lia].
Qed.

Lemma body_length s : (length s ≤ length (body s))%nat.
Proof.
  induction s as [|c s IH]; [done|].
  unfold body. cbn [map concat]. fold (body s). rewrite length_app. cbn [length].
  enough (0 < length (json.encode_char c))%nat by lia.
  unfold json.encode_char. destruct (json.needs_escape c); [|cbn; lia].
  unfold json.replace.
  repeat (match goal with |- context [if ?b then _ else _] => destruct b end);
    rewrite ?length_app; cbn [length py map String.list_ascii_of_string]; lia.
Qed.

End scanstring.

Section objects.
Implicit Types (s R rest ws : pystr) (c : codepoint) (d : pydict) (v : pyval).

Lemma skip_ws_blank ws c R :
  blank ws → reader.is_ws c = false → reader.skip_ws (ws ++ c :: R) = c :: R.
Proof.
  intros Hws Hc. induction Hws as [|x ws Hx _ IH]; cbn [app reader.skip_ws].
  - by rewrite Hc.
  - by rewrite Hx.
Qed.

Lemma encode_basestring_ascii_eq s :
  json.encode_basestring_ascii s = 34 :: body s ++ [34].
Proof. done. Qed.

Lemma iterencode_value_head v R :
  ∃ c R', json.iterencode_value v ++ R = c :: R' ∧ reader.is_ws c = false.
Proof.
  destruct v as [|s].
  - by exists 110, (py "ull" ++ R).
  - exists 34, ((body s ++ [34]) ++ R). cbn [json.iterencode_value].
    by rewrite encode_basestring_ascii_eq.
Qed.

Lemma scan_value_text v R :
  wellformed_value v = true →
  reader.scan_value (json.iterencode_value v ++ R) = Some (v, R).
Proof.
  destruct v as [|s]; [done|]. cbn [wellformed_value json.iterencode_value]. intros Hwf.
  rewrite encode_basestring_ascii_eq. cbn [app]. rewrite <- app_assoc. cbn [app].
  unfold reader.scan_value. cbn [reader.expect]. change (34 =? 34) with true. cbv iota.
  rewrite scanstring_body; [done | done |].
  rewrite length_app. cbn [length]. pose proof (body_length s). lia.
Qed.

Lemma items_text_eq ind sep d :
  concat (json.iterencode_items (json.make_encoder ind) sep false d)
  = items_text (py ": ") sep d.
Proof.
  induction d as [|[k v] d IH]; [done|].
  cbn [json.iterencode_items items_text concat app].
  rewrite IH, encode_basestring_ascii_eq. cbn [json.key_separator json.make_encoder].
  cbn [app]. by rewrite <- !app_assoc.
Qed.

Lemma items_text_length ksep sep d : (length d ≤ length (items_text ksep sep d))%nat.
Proof.
  induction d as [|[k v] d IH]; [done|]. cbn [items_text length].
  rewrite !length_app. cbn [length]. rewrite !length_app. cbn [length].
  rewrite !length_app. lia.
Qed.

Lemma members_S fuel s :
  reader.members (S fuel) s
  = ('(key, s1) ← reader.scanstring (length s) s;
     s2 ← reader.expect 58 (reader.skip_ws s1);
     '(value, s3) ← reader.scan_value (reader.skip_ws s2);
     match reader.skip_ws s3 with
     | c :: s4 =>
         if c =? 125 then Some ([(key, value)], s4)
         else if c =? 44 then
           s5 ← reader.expect 34 (reader.skip_ws s4);
           '(pairs, rest) ← reader.members fuel s5;
           Some ((key, value) :: pairs, rest)
         else None
     | [] => None
     end).
Proof. reflexivity. Qed.

(** The members of an object as the encoder writes them, read back. *)
Lemma members_items ws nl d k v fuel tail :
  blank ws → blank nl →
  wellformed k = true → wellformed_value v = true → Forall wellformed_item d →
  (length d < fuel)%nat →
  reader.members fuel
    (body k ++ 34 :: py ": " ++ json.iterencode_value v
     ++ items_text (py ": ") (44 :: ws) d ++ nl ++ 125 :: tail)
  = Some ((k, v) :: d, tail).
Proof.
  intros Hws Hnl Hk Hv Hd. revert k v fuel Hk Hv.
  induction Hd as [|[k' v'] d [Hk' Hv'] _ IH]; intros k v [|fuel] Hk Hv Hlen;
    try (cbn [length] in Hlen; lia).
  - rewrite members_S. rewrite scanstring_body; [| done |].
    2:{ rewrite length_app. cbn [length]. pose proof (body_length k). lia. }
    cbn [mbind option_bind]. change (py ": ") with [58; 32]. cbn [app reader.skip_ws].
    change (reader.is_ws 58) with false. cbv iota.
    cbn [reader.expect]. change (58 =? 58) with true. cbv iota.
    cbn [mbind option_bind reader.skip_ws items_text app].
    change (reader.is_ws 32) with true. cbv iota.
    destruct (iterencode_value_head v (nl ++ 125 :: tail)) as (c & R' & E & Hc).
    assert (reader.skip_ws (json.iterencode_value v ++ nl ++ 125 :: tail)
            = json.iterencode_value v ++ nl ++ 125 :: tail) as ->.
    { rewrite E. cbn [reader.skip_ws]. by rewrite Hc. }
    rewrite scan_value_text by done. cbn [mbind option_bind].
    rewrite skip_ws_blank by done. by change (125 =? 125) with true.
  - rewrite members_S. rewrite scanstring_body; [| done |].
    2:{ rewrite length_app. cbn [length]. pose proof (body_length k). lia. }
    cbn [mbind option_bind]. change (py ": ") with [58; 32]. cbn [app reader.skip_ws].
    change (reader.is_ws 58) with false. cbv iota.
    cbn [reader.expect]. change (58 =? 58) with true. cbv iota.
    cbn [mbind option_bind reader.skip_ws].
    change (reader.is_ws 32) with true. cbv iota.
    set (R := items_text [58; 32] (44 :: ws) ((k', v') :: d) ++ nl ++ 125 :: tail).
    destruct (iterencode_value_head v R) as (c & R' & E & Hc).
    assert (reader.skip_ws (json.iterencode_value v ++ R)
            = json.iterencode_value v ++ R) as ->.
    { rewrite E. cbn [reader.skip_ws]. by rewrite Hc. }
    rewrite scan_value_text by done. cbn [mbind option_bind]. subst R.
    cbn [items_text app reader.skip_ws]. change (reader.is_ws 44) with false. cbv iota.
    change (44 =? 125) with false. change (44 =? 44) with true. cbv iota.
    rewrite <- app_assoc. cbn [app].
    rewrite skip_ws_blank by done. cbn [reader.expect].
    change (34 =? 34) with true. cbv iota. cbn [mbind option_bind].
    rewrite <- !app_assoc. cbn [app]. rewrite <- !app_assoc.
    assert (length d < fuel)%nat as Hfuel by (cbn [length] in Hlen; lia).
    pose proof (IH k' v' fuel Hk' Hv' Hfuel) as IH'.
    change (py ": ") with [58; 32] in IH'. cbn [app] in IH'. by rewrite IH'.
Qed.

Lemma blank_app ws1 ws2 : blank ws1 → blank ws2 → blank (ws1 ++ ws2).
Proof. apply Forall_app_2. Qed.

Lemma blank_spaces n : blank (PyStr.times (py " ") n).
Proof.
  unfold PyStr.times. induction n as [|n IH]; [constructor|].
  cbn [replicate concat]. apply blank_app; [|done]. by repeat constructor.
Qed.

Lemma blank_indent n level :
  blank (json.py_newline ++ PyStr.times (PyStr.times (py " ") n) level).
Proof.
  apply blank_app; [by repeat constructor|].
  unfold PyStr.times at 1. induction level as [|l IH]; [constructor|].
  cbn [replicate concat]. apply blank_app; [apply blank_spaces | done].
Qed.

Lemma dict_setitem_fresh d k v :
  k ∉ map fst d → dict_setitem d k v = d ++ [(k, v)].
Proof.
  induction d as [|[k' v'] d IH]; [done|]. cbn [map fst dict_setitem app].
  intros Hk. rewrite not_elem_of_cons in Hk. destruct Hk as [Hne Hk].
  rewrite bool_decide_eq_false_2 by congruence. by rewrite IH.
Qed.

Lemma dict_of_app acc d :
  NoDup (map fst (acc ++ d)) →
  fold_left (λ d kv, dict_setitem d kv.1 kv.2) d acc = acc ++ d.
Proof.
  revert acc. induction d as [|[k v] d IH]; intros acc Hnd; cbn [fold_left].
  - by rewrite app_nil_r.
  - cbn [fst snd]. rewrite dict_setitem_fresh.
    + rewrite IH; rewrite <- app_assoc; [done|]. exact Hnd.
    + rewrite map_app in Hnd. cbn [map fst] in Hnd.
      apply NoDup_app in Hnd as (_ & Hdisj & _).
      intros Hin. apply (Hdisj k Hin). left.
Qed.

Lemma dict_of_NoDup d : NoDup (map fst d) → reader.dict_of d = d.
Proof. intros Hnd. unfold reader.dict_of. by rewrite dict_of_app. Qed.

(** What [dumps] writes for a dictionary that is not empty. *)
Lemma dumps_indent k v d n :
  json.dumps ((k, v) :: d) (Some n)
  = 123 :: (json.py_newline ++ PyStr.times (PyStr.times (py " ") n) 1)
    ++ 34 :: body k ++ 34 :: py ": " ++ json.iterencode_value v
    ++ items_text (py ": ")
         (44 :: json.py_newline ++ PyStr.times (PyStr.times (py " ") n) 1) d
    ++ json.py_newline ++ 125 :: [].
Proof.
  unfold json.dumps, json.iterencode, json.iterencode_dict.
  rewrite bool_decide_eq_false_2 by done.
  cbn [json.indent json.make_encoder json.item_separator json.key_separator].
  cbn [json.iterencode_items Nat.add]. cbv zeta.
  rewrite !concat_app. cbn [concat app]. rewrite items_text_eq.
  rewrite encode_basestring_ascii_eq. cbn [app].
  change (PyStr.times (PyStr.times (py " ") n) 0) with (@nil N).
  rewrite !app_nil_r.
  change (py "{") with [123]. change (py ",") with [44]. change (py "}") with [125].
  cbn [app]. rewrite <- !app_assoc. cbn [app]. reflexivity.
Qed.

(** Reading back what [dumps] wrote gives the dictionary again. *)
Lemma loads_dumps d n :
  Forall wellformed_item d → NoDup (map fst d) →
  reader.loads (json.dumps d (Some n)) = Some d.
Proof.
  intros Hwf Hnd. destruct d as [|[k v] d]; [done|].
  apply Forall_cons_1 in Hwf as [[Hk Hv] Hd]. cbn [fst snd] in Hk, Hv.
  rewrite dumps_indent. unfold reader.loads.
  cbn [reader.skip_ws]. change (reader.is_ws 123) with false. cbv iota.
  unfold reader.scan_object. cbn [reader.expect]. change (123 =? 123) with true.
  cbv iota. cbn [mbind option_bind].
  rewrite skip_ws_blank; [| apply blank_indent | done].
  change (34 =? 125) with false. change (34 =? 34) with true. cbv iota.
  rewrite (members_items _ json.py_newline d k v); try done.
  - by rewrite dict_of_NoDup.
  - apply blank_indent.
  - by repeat constructor.
  - rewrite !length_app. cbn [length]. rewrite !length_app.
    pose proof (items_text_length (py ": ")
      (44 :: json.py_newline ++ PyStr.times (PyStr.times (py " ") n) 1) d). lia.
Qed.

End objects.

(** ** The settings document *)

Section document.
Implicit Types (h : host) (env : gmap (list N) (list N)).

Lemma settings_data_eq env :
  settings_data env
  = [(py "GH_APP_ID", os.environ_get env (py "GH_APP_ID"));
     (py "GH_APP_URL", os.environ_get env (py "GH_APP_URL"))].
Proof. unfold settings_data. cbn [dict_setitem]. by rewrite bool_decide_eq_false_2. Qed.

Lemma settings_chunks env :
  json.iterencode (json.make_encoder (Some 2%nat)) (settings_data env)
  = [py "{"; [10; 32; 32];
     json.quote :: py "GH_APP_ID" ++ [json.quote]; py ": ";
     json.iterencode_value (os.environ_get env (py "GH_APP_ID"));
     [44; 10; 32; 32];
     json.quote :: py "GH_APP_URL" ++ [json.quote]; py ": ";
     json.iterencode_value (os.environ_get env (py "GH_APP_URL"));
     [10]; py "}"].
Proof. rewrite settings_data_eq. reflexivity. Qed.

Lemma settings_text_eq h :
  settings_text h
  = py "{" ++ [10; 32; 32]
    ++ (json.quote :: py "GH_APP_ID" ++ [json.quote]) ++ py ": "
    ++ json.iterencode_value (os.environ_get (environ h) (py "GH_APP_ID"))
    ++ [44; 10; 32; 32]
    ++ (json.quote :: py "GH_APP_URL" ++ [json.quote]) ++ py ": "
    ++ json.iterencode_value (os.environ_get (environ h) (py "GH_APP_URL"))
    ++ [10] ++ py "}".
Proof.
  unfold settings_text, json.dumps. rewrite settings_chunks.
  cbn [concat]. by rewrite app_nil_r.
Qed.

Lemma settings_text_ascii h : ascii_text (settings_text h).
Proof. apply ascii_text_concat, iterencode_ascii. Qed.

Lemma settings_text_encode h enc :
  io.encode enc (settings_text h) = Some (ascii_bytes (settings_text h)).
Proof. apply encode_ascii, settings_text_ascii. Qed.

(** The bytes of the document, read back. *)
Lemma settings_roundtrip h :
  wellformed_value (os.environ_get (environ h) (py "GH_APP_ID")) = true →
  wellformed_value (os.environ_get (environ h) (py "GH_APP_URL")) = true →
  reader.load (ascii_bytes (settings_text h)) = Some (settings_data (environ h)).
Proof.
  intros H1 H2. unfold reader.load.
  rewrite decode_ascii_bytes by apply settings_text_ascii.
  unfold settings_text. apply loads_dumps; rewrite settings_data_eq.
  - apply Forall_cons_2; [by split|]. apply Forall_cons_2; [by split | constructor].
  - cbn [map fst]. apply NoDup_cons_2; [|apply NoDup_singleton].
    rewrite list_elem_of_singleton. done.
Qed.

End document.

(** ** Runs of the script *)

Section runs.
Implicit Types (h : host) (w : world) (cfg name : pystr).


Lemma run_returned h (fs0 : filesystem) w' :
  run h fs0 = (Returned tt, w') →
  ∃ w1 fs2 loc evs,
    os.makedirs (posixpath.dirname (settings_path (config_dir h))) true
      {| fs := fs0; log := [] |} = (Returned tt, w1)
    ∧ vfs.open_trunc (fs w1) (settings_path (config_dir h)) = Ok (fs2, loc)
    ∧ fs w' = vfs.put (fs w1) loc (File true (ascii_bytes (settings_text h)))
    ∧ log w' = log w1 ++ (SysOpen (settings_path (config_dir h)), fs w1) :: evs
    ∧ map fst evs
      = map (λ c, SysWrite loc (ascii_bytes c))
            (json.iterencode (json.make_encoder (Some 2%nat)) (settings_data (environ h)))
        ++ [SysClose loc].
Proof.
  intros Hrun. pose proof (run_cases h fs0) as H. cbv zeta in H.
  destruct (os.makedirs _ _ _) as [[[]|e] w1]; [|congruence].
  destruct (vfs.open_trunc _ _) as [[fs2 loc]|e] eqn:O; [|congruence].
  destruct H as (w'' & E & Hfs & evs & Hlog & Hevs).
  assert (w'' = w') as -> by congruence.
  exists w1, fs2, loc, evs. repeat split; done.
Qed.

Lemma run_raised h (fs0 : filesystem) e w' :
  run h fs0 = (Raised e, w') →
  os.makedirs (posixpath.dirname (settings_path (config_dir h))) true
    {| fs := fs0; log := [] |} = (Raised e, w')
  ∨ ∃ w1 err,
      os.makedirs (posixpath.dirname (settings_path (config_dir h))) true
        {| fs := fs0; log := [] |} = (Returned tt, w1)
      ∧ vfs.open_trunc (fs w1) (settings_path (config_dir h)) = Error err
      ∧ e = OSError err ∧ w' = logged w1 (SysOpen (settings_path (config_dir h))).
Proof.
  intros Hrun. pose proof (run_cases h fs0) as H. cbv zeta in H.
  destruct (os.makedirs _ _ _) as [[[]|e1] w1]; [|left; congruence].
  destruct (vfs.open_trunc _ _) as [[fs2 loc]|err] eqn:O.
  - destruct H as (w'' & E & _). congruence.
  - right. exists w1, err. split; [done|]. split; [done|].
    rewrite Hrun in H. by injection H as -> ->.
Qed.

(** After a run that returns, the settings file holds the document. *)
Lemma run_written h (fs0 : filesystem) w' :
  run h fs0 = (Returned tt, w') →
  vfs.stat (fs w') (settings_path (config_dir h))
  = Ok (File true (ascii_bytes (settings_text h))).
Proof.
  intros (w1 & fs2 & loc & evs & _ & O & Hfs & _)%run_returned.
  apply open_trunc_Ok in O as (cur & c & L & -> & _ & Hnd & Hend).
  rewrite Hfs. unfold vfs.stat.
  rewrite (lookup_parent_extends (fs w1) _ _ cur (Some c)); [| by apply put_extends | done].
  cbn [vfs.final vfs.put nodes]. rewrite lookup_insert_eq. by rewrite Hend.
Qed.

(** The directories of the settings path. *)
Lemma makedirs_made h w w1 :
  os.makedirs (posixpath.dirname (settings_path (config_dir h))) true w = (Returned tt, w1) →
  ∃ wr, vfs.stat (fs w1) (posixpath.dirname (settings_path (config_dir h))) = Ok (Dir wr).
Proof.
  rewrite settings_dirname. unfold os.makedirs. intros E.
  eapply makedirs_rec_made; [apply settings_dir_split | done | done | exact E].
Qed.

Lemma dirs_under (s : filesystem) cfg wr :
  vfs.stat s (dir_prefix cfg ++ rel_dir) = Ok (Dir wr) →
  (∃ wr1, vfs.stat s (dir_prefix cfg ++ py "lab") = Ok (Dir wr1))
  ∧ (∃ wr2, vfs.stat s (dir_prefix cfg ++ py "lab/user-settings") = Ok (Dir wr2)).
Proof.
  intros H.
  apply (stat_under_dir _ _ _ [py "lab"; py "user-settings"] PLUGIN_ID) in H
    as (cur & W & _); [|done..].
  change [py "lab"; py "user-settings"] with ([py "lab"] ++ [py "user-settings"]) in W.
  rewrite app_assoc in W. apply walk_snoc_Ok in W as (cur1 & wr2 & W & -> & Hn2).
  split.
  - rewrite <- (app_nil_r (vfs.components cfg)), <- app_assoc in W. cbn [app] in W.
    rewrite <- (app_nil_r (vfs.components cfg)) in W.
    apply walk_snoc_Ok in W as (cur0 & wr1 & W & -> & Hn1).
    exists wr1. apply (stat_under_dir _ _ _ [] (py "lab")); eauto.
  - exists wr2. apply (stat_under_dir _ _ _ [py "lab"] (py "user-settings")); eauto.
Qed.

Lemma join_lab cfg : posixpath.join cfg [py "lab"] = dir_prefix cfg ++ py "lab".
Proof. unfold posixpath.join. cbn [fold_left]. by rewrite join_step_relative. Qed.

Lemma join_lab_user_settings cfg :
  posixpath.join cfg [py "lab"; py "user-settings"] = dir_prefix cfg ++ py "lab/user-settings".
Proof.
  unfold posixpath.join. cbn [fold_left]. rewrite (join_step_relative cfg) by done.
  change (py "lab") with ([108; 97] ++ [98]). rewrite (app_assoc (dir_prefix cfg)).
  rewrite (join_step_relative _ (py "user-settings")) by done.
  rewrite dir_prefix_snoc by done. by rewrite <- !app_assoc.
Qed.

(** A log of [stat] and [mkdir] calls opens nothing and writes nothing. *)
Lemma opened_dir_calls (l : list (syscall * filesystem)) :
  Forall (λ ev, is_dir_call ev.1) l → opened l = [].
Proof.
  induction 1 as [|[c s] l Hc _ IH]; [done|]. unfold opened in *. cbn [omap list_omap].
  by destruct c.
Qed.

Lemma written_dir_calls (l : list (syscall * filesystem)) :
  Forall (λ ev, is_dir_call ev.1) l → written l = [].
Proof.
  induction 1 as [|[c s] l Hc _ IH]; [done|]. unfold written in *. cbn [omap list_omap].
  by destruct c.
Qed.

Lemma makedirs_logs name exist_ok : respects (logs is_dir_call) (os.makedirs name exist_ok).
Proof. unfold os.makedirs. apply makedirs_rec_logs. Qed.

Lemma makedirs_log name exist_ok w w1 (r : outcome unit) :
  os.makedirs name exist_ok w = (r, w1) →
  ∃ evs, log w1 = log w ++ evs ∧ Forall (λ ev, is_dir_call ev.1) evs.
Proof.
  intros E. pose proof (makedirs_logs name exist_ok w) as H.
  rewrite E in H. exact H.
Qed.

Lemma writes_only (evs : list (syscall * filesystem)) loc (chunks : list pystr) :
  map fst evs = map (λ c, SysWrite loc (ascii_bytes c)) chunks ++ [SysClose loc] →
  Forall (λ ev, is_write_call ev.1) evs.
Proof.
  intros E. apply Forall_forall. intros ev Hev.
  assert (ev.1 ∈ map fst evs) as Hin by (by apply list_elem_of_fmap_2).
  rewrite E in Hin. apply elem_of_app in Hin as [Hin|Hin].
  - apply list_elem_of_fmap in Hin as (c & -> & _). done.
  - apply list_elem_of_singleton in Hin as ->. done.
Qed.

Lemma writes_written (evs : list (syscall * filesystem)) loc (chunks : list pystr) :
  map fst evs = map (λ c, SysWrite loc (ascii_bytes c)) chunks ++ [SysClose loc] →
  written evs = ascii_bytes (concat chunks).
Proof.
  revert evs. induction chunks as [|c chunks IH]; intros evs E.
  - destruct evs as [|[c1 s1] [|]]; try done. cbn in E. by injection E as ->.
  - destruct evs as [|[c1 s1] evs]; [done|]. cbn [map fst] in E.
    injection E as -> E. apply IH in E. unfold written in *. cbn [omap list_omap fst concat].
    by rewrite E, ascii_bytes_app.
Qed.

(** The one [open] call of a log. *)
Lemma open_unique (before after l1 l2 : list (syscall * filesystem)) p s p' s' :
  before ++ (SysOpen p, s) :: after = l1 ++ (SysOpen p', s') :: l2 →
  Forall (λ ev, is_dir_call ev.1) l1 → Forall (λ ev, is_write_call ev.1) l2 →
  before = l1 ∧ p = p' ∧ s = s' ∧ after = l2.
Proof.
  intros E H1 H2. revert before E.
  induction H1 as [|y l1 Hy _ IH]; intros [|x before] E; cbn [app] in E.
  - by injection E as -> -> ->.
  - injection E as -> E. rewrite <- E in H2.
    apply Forall_app in H2 as [_ H2]. by apply Forall_cons_1 in H2 as [? _].
  - injection E as <- _. done.
  - injection E as -> E. by destruct (IH _ E) as (-> & -> & -> & ->).
Qed.

End runs.

(** ** Failures *)

Section failures.
Context {A B : Type}.
Implicit Types (w : world) (e : exn).





End failures.

Section os_failures.
Implicit Types (w : world) (p name : pystr).

Lemma make_last_eq name w :
  make_last name true w
  = match vfs.mkdir (fs w) name with
    | Ok s' => (Returned tt, {| fs := s'; log := log w ++ [(SysMkdir name, fs w)] |})
    | Error e =>
        match vfs.stat (fs w) name with
        | Ok (Dir _) => (Returned tt, logged (logged w (SysMkdir name)) (SysStat name))
        | _ => (Raised (OSError e), logged (logged w (SysMkdir name)) (SysStat name))
        end
    end.
Proof.
  unfold make_last, try_except. rewrite mkdir_eq.
  destruct (vfs.mkdir (fs w) name) as [s'|e]; [done|]. cbn [is_OSError].
  unfold mbind, M_bind. rewrite path_isdir_eq. cbn [fs logged].
  by destruct (vfs.stat (fs w) name) as [[]|].
Qed.







End os_failures.

Section run_failures.
Implicit Types (h : host) (w : world).


End run_failures.

(** ** A directory or a file that is already there *)

Section present.
Implicit Types (h : host) (w : world) (cfg : pystr) (s : filesystem).

Lemma stat_lookup_parent s p n :
  vfs.stat s p = Ok n → ∃ cur l, vfs.lookup_parent s p = Ok (cur, l).
Proof. unfold vfs.stat. destruct (vfs.lookup_parent s p) as [[cur l]|]; [eauto | done]. Qed.

(** [makedirs] on the settings directory when it is there. *)
Lemma makedirs_present cfg w wr :
  vfs.stat (fs w) (dir_prefix cfg ++ rel_dir) = Ok (Dir wr) →
  ∃ evs, os.makedirs (dir_prefix cfg ++ rel_dir) true w
         = (Returned tt, {| fs := fs w; log := log w ++ evs |})
         ∧ Forall (λ ev, is_dir_call ev.1) evs.
Proof.
  intros Hd. destruct (dirs_under _ _ _ Hd) as [_ [wr2 Hh]].
  eexists. split.
  - unfold os.makedirs.
    eapply makedirs_rec_present; [apply settings_dir_split | done | | exact Hh | exact Hd].
    by apply prefix_rel_nonempty.
  - by repeat constructor.
Qed.

(** The settings file when it is there: its directory is, and the file
    can be opened when it is writable. *)
Lemma file_present cfg s wr d :
  vfs.stat s (dir_prefix cfg ++ rel_file) = Ok (File wr d) →
  (∃ wr', vfs.stat s (dir_prefix cfg ++ rel_dir) = Ok (Dir wr'))
  ∧ ∃ loc, nodes s !! loc = Some (File wr d)
           ∧ vfs.open_trunc s (dir_prefix cfg ++ rel_file)
             = if wr then Ok (vfs.put s loc (File true []), loc) else Error EACCES.
Proof.
  intros Hf.
  assert (PyStr.endswith (dir_prefix cfg ++ rel_file) posixpath.sep = false) as Hend.
  { by rewrite endswith_app. }
  revert Hf. unfold vfs.stat, vfs.open_trunc.
  rewrite (lookup_parent_under _ _ _ [py "lab"; py "user-settings"; PLUGIN_ID]
             (py "plugin.json")) by done.
  destruct (vfs.walk _ _ _) as [cur|] eqn:W; [|done].
  cbn [vfs.final]. rewrite Hend.
  destruct (nodes s !! vfs.target cur (py "plugin.json")) as [[|wr0 d0]|] eqn:E; [done| |done].
  intros [= -> ->]. split.
  - change [py "lab"; py "user-settings"; PLUGIN_ID]
      with ([py "lab"; py "user-settings"] ++ [PLUGIN_ID]) in W.
    rewrite app_assoc in W. apply walk_snoc_Ok in W as (cur1 & wr' & W & -> & Hn).
    exists wr'. apply (stat_under_dir _ _ _ [py "lab"; py "user-settings"] PLUGIN_ID); eauto.
  - exists (vfs.target cur (py "plugin.json")). split; [done|].
    change (vfs.special (Some (py "plugin.json"))) with false. cbn [orb].
    by destruct wr.
Qed.

End present.

(** ** Sample hosts and file systems *)

Section log_shape.
Implicit Types (h : host) (w : world).

Lemma opened_app (l1 l2 : list (syscall * filesystem)) :
  opened (l1 ++ l2) = opened l1 ++ opened l2.
Proof. apply omap_app. Qed.

Lemma opened_write_calls (l : list (syscall * filesystem)) :
  Forall (λ ev, is_write_call ev.1) l → opened l = [].
Proof.
  induction 1 as [|[c s] l Hc _ IH]; [done|]. unfold opened in *. cbn [omap list_omap].
  by destruct c.
Qed.

Lemma written_app (l1 l2 : list (syscall * filesystem)) :
  written (l1 ++ l2) = written l1 ++ written l2.
Proof. unfold written. by rewrite omap_app, concat_app. Qed.

(** The log of a run: the [stat] and [mkdir] calls of [makedirs], then,
    if [makedirs] returned, the [open] of the settings file on a file
    system that has its directory, then the writes and the close. *)
Lemma run_log h (fs0 : filesystem) o w' :
  run h fs0 = (o, w') →
  ∃ dirs, Forall (λ ev, is_dir_call ev.1) dirs
    ∧ (log w' = dirs ∧ is_Some (match o with Raised e => Some e | _ => None end)
       ∨ ∃ s evs,
           log w' = dirs ++ (SysOpen (settings_path (config_dir h)), s) :: evs
           ∧ Forall (λ ev, is_write_call ev.1) evs
           ∧ (∃ wr, vfs.stat s (posixpath.dirname (settings_path (config_dir h)))
                    = Ok (Dir wr))
           ∧ (o = Returned tt → written evs = ascii_bytes (settings_text h))).
Proof.
  intros Hrun. destruct o as [[]|e].
  - apply run_returned in Hrun as (w1 & fs2 & loc & evs & Emk & _ & _ & Hlog & Hevs).
    destruct (makedirs_log _ _ _ _ _ Emk) as (dirs & Hd & Hdirs). cbn [log app] in Hd.
    exists dirs. split; [done|]. right. exists (fs w1), evs. rewrite <- Hd.
    split; [done|]. split; [by eapply writes_only|]. split; [by eapply makedirs_made|].
    intros _. unfold settings_text, json.dumps. by eapply writes_written.
  - apply run_raised in Hrun as [Emk|(w1 & err & Emk & _ & -> & ->)].
    + destruct (makedirs_log _ _ _ _ _ Emk) as (dirs & Hd & Hdirs). cbn [log app] in Hd.
      exists dirs. split; [done|]. left. by split; [|eexists].
    + destruct (makedirs_log _ _ _ _ _ Emk) as (dirs & Hd & Hdirs). cbn [log app] in Hd.
      exists dirs. split; [done|]. right. exists (fs w1), []. rewrite <- Hd.
      split; [done|]. split; [constructor|]. split; [by eapply makedirs_made | done].
Qed.

Lemma environ_get_lookup h k (v : option pystr) :
  environ h !! k = v → os.environ_get (environ h) k = from_option PyStr PyNone v.
Proof. by intros <-. Qed.

Lemma wellformed_from_option (o : option pystr) :
  from_option wellformed true o = true →
  wellformed_value (from_option PyStr PyNone o) = true.
Proof. by destruct o. Qed.

(** A run known by its outcome. *)
Lemma run_outcome h (fs0 : filesystem) o :
  (run h fs0).1 = o → run h fs0 = (o, (run h fs0).2).
Proof. intros <-. apply surjective_pairing. Qed.

Lemma lookup_call (l : list (syscall * filesystem)) i c :
  fst <$> l !! i = Some c → ∃ s, l !! i = Some (c, s).
Proof. destruct (l !! i) as [[c' s]|]; [|done]. intros [= ->]. by exists s. Qed.

End log_shape.

(** * The claims *)

(** C1. Whatever the two variables are, each set to a string or unset, the
    document in the file after a run that returns is, read back as JSON,
    the mapping with exactly the keys [GH_APP_ID] and [GH_APP_URL], in
    that order, each with the string of its variable when it is set and
    with [null] when it is not. The strings are text as the environment
    gives it: no high surrogate directly followed by a low one. *)
Theorem document_round_trip h (fs0 : filesystem) w' (id url : option pystr) :
  environ h !! py "GH_APP_ID" = id →
  environ h !! py "GH_APP_URL" = url →
  from_option wellformed true id = true →
  from_option wellformed true url = true →
  run h fs0 = (Returned tt, w') →
  ∃ bs, vfs.stat (fs w') (settings_path (config_dir h)) = Ok (File true bs)
        ∧ reader.load bs = Some [(py "GH_APP_ID", from_option PyStr PyNone id);
                                 (py "GH_APP_URL", from_option PyStr PyNone url)].
Proof.
  intros <- <- H1 H2 Hrun. exists (ascii_bytes (settings_text h)).
  split; [by apply (run_written h fs0)|].
  rewrite settings_roundtrip, ?settings_data_eq.
  - reflexivity.
  - by apply (wellformed_from_option (environ h !! py "GH_APP_ID")).
  - by apply (wellformed_from_option (environ h !! py "GH_APP_URL")).
Qed.

Lemma document_round_trip_sample :
  ∃ bs, vfs.stat (fs (run sample_host sample_root).2) (settings_path (config_dir sample_host))
        = Ok (File true bs)
        ∧ reader.load bs = Some [(py "GH_APP_ID", PyStr (py "abc123"));
                                 (py "GH_APP_URL", PyNone)].
Proof.
  apply (document_round_trip sample_host sample_root (run sample_host sample_root).2
           (Some (py "abc123")) None); [vm_compute; reflexivity..|].
  apply run_outcome. vm_compute. reflexivity.
Defined.

(** C2. The path of the file the script writes is the configuration
    directory joined with [lab/user-settings/jupyter2repo/plugin.json]:
    that is what [settings_path] is, no run opens another path, and a run
    that returns has opened it and leaves a file there. *)
Theorem settings_path_under_root h (fs0 : filesystem) o w' :
  run h fs0 = (o, w') →
  let target :=
    posixpath.join (config_dir h) [py "lab/user-settings/jupyter2repo/plugin.json"] in
  settings_path (config_dir h) = target
  ∧ Forall (λ p, p = target) (opened (log w'))
  ∧ (o = Returned tt →
     opened (log w') = [target] ∧ ∃ bs, vfs.stat (fs w') target = Ok (File true bs)).
Proof.
  intros Hrun target.
  assert (settings_path (config_dir h) = target) as Ht.
  { subst target. rewrite settings_path_eq. symmetry. apply join_rel_file. }
  rewrite <- Ht. split; [done|].
  destruct (run_log _ _ _ _ Hrun) as (dirs & Hdirs & [[-> [e He]]|(s & evs & -> & Hevs & _)]).
  - rewrite opened_dir_calls by done. split; [constructor|]. intros ->. done.
  - rewrite opened_app, opened_dir_calls by done. cbn [app].
    change (opened ((SysOpen (settings_path (config_dir h)), s) :: evs))
      with (settings_path (config_dir h) :: opened evs).
    rewrite opened_write_calls by done.
    split; [by repeat constructor|]. intros ->. split; [done|].
    eexists. by apply (run_written h fs0).
Qed.

Lemma settings_path_under_root_sample :
  settings_path (py "/home/u/.jupyter")
  = py "/home/u/.jupyter/lab/user-settings/jupyter2repo/plugin.json"
  ∧ opened (log (run sample_host sample_root).2)
    = [py "/home/u/.jupyter/lab/user-settings/jupyter2repo/plugin.json"].
Proof.
  destruct (settings_path_under_root sample_host sample_root
              (run sample_host sample_root).1 (run sample_host sample_root).2)
    as (H1 & _ & H2); [apply surjective_pairing|].
  split; [exact H1|]. apply H2. vm_compute. reflexivity.
Defined.

(** C3. After a run that returns, the settings file holds exactly the
    text that [json.dumps] gives for the document with [indent=2], byte
    for byte (the text is ASCII, one byte a character): an opening brace,
    each of the two items on a line of its own behind two spaces, a comma
    after the first, and the closing brace on the last line. That is also
    what the text encodes to in the locale's encoding. *)
Theorem file_holds_indented_document h (fs0 : filesystem) w' :
  run h fs0 = (Returned tt, w') →
  vfs.stat (fs w') (settings_path (config_dir h))
  = Ok (File true (ascii_bytes (json.dumps (settings_data (environ h)) (Some 2%nat))))
  ∧ json.dumps (settings_data (environ h)) (Some 2%nat)
    = concat
        [py "{"; json.py_newline;
         py "  "; json.encode_basestring_ascii (py "GH_APP_ID"); py ": ";
         json.iterencode_value (os.environ_get (environ h) (py "GH_APP_ID"));
         py ","; json.py_newline;
         py "  "; json.encode_basestring_ascii (py "GH_APP_URL"); py ": ";
         json.iterencode_value (os.environ_get (environ h) (py "GH_APP_URL"));
         json.py_newline; py "}"]
  ∧ io.encode (locale_encoding h) (json.dumps (settings_data (environ h)) (Some 2%nat))
    = Some (ascii_bytes (json.dumps (settings_data (environ h)) (Some 2%nat))).
Proof.
  intros Hrun. split; [by apply (run_written h fs0)|]. split; [|apply settings_text_encode].
  change (json.dumps (settings_data (environ h)) (Some 2%nat)) with (settings_text h).
  rewrite settings_text_eq. cbn [concat]. rewrite app_nil_r. reflexivity.
Qed.

Lemma file_holds_indented_document_sample :
  vfs.stat (fs (run sample_host sample_root).2) (settings_path (config_dir sample_host))
  = Ok (File true
          (Byte.x7b :: Byte.x0a
           :: map io.byte_of_N (py "  " ++ [json.quote] ++ py "GH_APP_ID" ++ [json.quote]
                                ++ py ": " ++ [json.quote] ++ py "abc123" ++ [json.quote]
                                ++ py ",")
           ++ Byte.x0a
           :: map io.byte_of_N (py "  " ++ [json.quote] ++ py "GH_APP_URL" ++ [json.quote]
                                ++ py ": null")
           ++ [Byte.x0a; Byte.x7d])).
Proof.
  destruct (file_holds_indented_document sample_host sample_root
              (run sample_host sample_root).2) as (H & _ & _).
  - apply run_outcome. vm_compute. reflexivity.
  - rewrite H. vm_compute. reflexivity.
Defined.



(** C5. Creating the directories is idempotent. When the settings
    directory is there, [makedirs] returns and leaves the file system as
    it is; a run of the script, however it ends, keeps every directory
    there was, the settings directory among them, so that the directory
    step of the next run returns as well, again without a change. *)
Theorem makedirs_idempotent h (fs0 : filesystem) wr :
  vfs.stat fs0 (posixpath.dirname (settings_path (config_dir h))) = Ok (Dir wr) →
  (∃ w1, os.makedirs (posixpath.dirname (settings_path (config_dir h))) true
           {| fs := fs0; log := [] |} = (Returned tt, w1)
         ∧ fs w1 = fs0)
  ∧ ∀ o w', run h fs0 = (o, w') →
      extends fs0 (fs w')
      ∧ vfs.stat (fs w') (posixpath.dirname (settings_path (config_dir h))) = Ok (Dir wr)
      ∧ ∃ w2, os.makedirs (posixpath.dirname (settings_path (config_dir h))) true
                {| fs := fs w'; log := [] |} = (Returned tt, w2)
              ∧ fs w2 = fs w'.
Proof.
  intros Hd.
  assert (∀ s, vfs.stat s (posixpath.dirname (settings_path (config_dir h))) = Ok (Dir wr) →
               ∃ w1, os.makedirs (posixpath.dirname (settings_path (config_dir h))) true
                       {| fs := s; log := [] |} = (Returned tt, w1)
                     ∧ fs w1 = s) as Hmk.
  { intros s Hs. rewrite settings_dirname in *.
    destruct (makedirs_present (config_dir h) {| fs := s; log := [] |} wr Hs)
      as (evs & Emk & _).
    eexists. split; [exact Emk | done]. }
  split; [by apply Hmk|]. intros o w' Hrun.
  destruct (Hmk fs0 Hd) as (w1 & Emk & Hw1).
  assert (extends fs0 (fs w')) as Hext.
  { destruct o as [[]|e].
    - apply run_returned in Hrun as (w1' & fs2 & loc & evs & Emk' & O & Hfs & _).
      assert (w1' = w1) as -> by congruence.
      apply open_trunc_Ok in O as (cur & c & _ & -> & _ & Hnd & _).
      rewrite Hfs, Hw1. apply put_extends. by rewrite <- Hw1.
    - apply run_raised in Hrun as [Emk'|(w1' & err & Emk' & _ & _ & ->)]; [congruence|].
      assert (w1' = w1) as -> by congruence. cbn [logged fs]. rewrite Hw1.
      apply extends_refl. }
  split; [done|].
  assert (vfs.stat (fs w') (posixpath.dirname (settings_path (config_dir h))) = Ok (Dir wr))
    as Hd' by (by eapply stat_dir_extends).
  split; [done|]. by apply Hmk.
Qed.

Lemma makedirs_idempotent_sample :
  (∃ w1, os.makedirs (posixpath.dirname (settings_path (config_dir sample_host))) true
           {| fs := sample_installed; log := [] |} = (Returned tt, w1)
         ∧ fs w1 = sample_installed)
  ∧ ∀ o w', run sample_host sample_installed = (o, w') →
      extends sample_installed (fs w')
      ∧ vfs.stat (fs w') (posixpath.dirname (settings_path (config_dir sample_host)))
        = Ok (Dir true)
      ∧ ∃ w2, os.makedirs (posixpath.dirname (settings_path (config_dir sample_host))) true
                {| fs := fs w'; log := [] |} = (Returned tt, w2)
              ∧ fs w2 = fs w'.
Proof.
  apply (makedirs_idempotent sample_host sample_installed true).
  vm_compute. reflexivity.
Defined.




(** C7. The directories come first. Wherever the log of a run has the
    [open] of a file, it is the settings file; all calls before it are the
    [stat] and [mkdir] calls of [makedirs], all calls after it are writes
    to the file and its close; and on the file system the [open] is made
    on, the directory of the file and the directories above it under the
    configuration directory are there, whether they were before the run
    or not. *)
Theorem directories_before_open h (fs0 : filesystem) o w' before p s after :
  run h fs0 = (o, w') →
  log w' = before ++ (SysOpen p, s) :: after →
  p = settings_path (config_dir h)
  ∧ Forall (λ ev, is_dir_call ev.1) before
  ∧ Forall (λ ev, is_write_call ev.1) after
  ∧ Forall (λ d, ∃ wr, vfs.stat s d = Ok (Dir wr))
      [posixpath.join (config_dir h) [py "lab"];
       posixpath.join (config_dir h) [py "lab"; py "user-settings"];
       posixpath.dirname p].
Proof.
  intros Hrun Hlog.
  destruct (run_log _ _ _ _ Hrun)
    as (dirs & Hdirs & [[Hl _]|(s' & evs & Hl & Hevs & [wr Hd] & _)]).
  - rewrite Hl in Hlog. rewrite Hlog in Hdirs.
    apply Forall_app in Hdirs as [_ Hdirs]. by apply Forall_cons_1 in Hdirs as [? _].
  - rewrite Hl in Hlog. symmetry in Hlog.
    apply open_unique in Hlog as (-> & -> & -> & ->); [|done..].
    split; [done|]. split; [done|]. split; [done|].
    rewrite join_lab, join_lab_user_settings.
    rewrite settings_dirname in *. destruct (dirs_under _ _ _ Hd) as [H1 H2].
    apply Forall_cons_2; [done|]. apply Forall_cons_2; [done|].
    apply Forall_cons_2; [eauto | constructor].
Qed.

Lemma directories_before_open_sample :
  vfs.stat sample_root (py "/home/u/.jupyter") = Error ENOENT
  ∧ ∃ s, Forall (λ ev, is_dir_call ev.1) (take 8 (log (run sample_host sample_root).2))
         ∧ Forall (λ d, ∃ wr, vfs.stat s d = Ok (Dir wr))
             [posixpath.join (config_dir sample_host) [py "lab"];
              posixpath.join (config_dir sample_host) [py "lab"; py "user-settings"];
              posixpath.dirname (settings_path (config_dir sample_host))].
Proof.
  split; [vm_compute; reflexivity|].
  destruct (lookup_call (log (run sample_host sample_root).2) 8
              (SysOpen (settings_path (config_dir sample_host)))) as [s Hs];
    [vm_compute; reflexivity|].
  exists s. apply take_drop_middle in Hs. symmetry in Hs.
  destruct (directories_before_open sample_host sample_root
              (run sample_host sample_root).1 (run sample_host sample_root).2
              _ _ _ _ (surjective_pairing _) Hs) as (_ & H1 & _ & H2).
  by split.
Defined.

(** C8. A variable set to the empty string gives the empty string in the
    document, written as two quotes, and never [null]: in the document a
    reader gets from the file, the value of a key is [null] exactly when
    its variable is not set. *)
Theorem empty_string_not_null h (fs0 : filesystem) w' k (v : option pystr) :
  k ∈ [py "GH_APP_ID"; py "GH_APP_URL"] →
  environ h !! k = v →
  from_option wellformed true (environ h !! py "GH_APP_ID") = true →
  from_option wellformed true (environ h !! py "GH_APP_URL") = true →
  run h fs0 = (Returned tt, w') →
  ∃ bs d, vfs.stat (fs w') (settings_path (config_dir h)) = Ok (File true bs)
          ∧ reader.load bs = Some d
          ∧ (v = Some [] → dict_get d k = Some (PyStr []))
          ∧ (v = None ↔ dict_get d k = Some PyNone)
          ∧ json.iterencode_value (PyStr []) = [json.quote; json.quote]
          ∧ json.iterencode_value PyNone = py "null".
Proof.
  intros Hk Hv H1 H2 Hrun.
  exists (ascii_bytes (settings_text h)), (settings_data (environ h)).
  split; [by apply (run_written h fs0)|]. split.
  { apply settings_roundtrip.
    - by apply (wellformed_from_option (environ h !! py "GH_APP_ID")).
    - by apply (wellformed_from_option (environ h !! py "GH_APP_URL")). }
  assert (dict_get (settings_data (environ h)) k = Some (from_option PyStr PyNone v)) as ->.
  { rewrite settings_data_eq, <- Hv.
    apply elem_of_cons in Hk as [->|Hk]; [reflexivity|].
    apply list_elem_of_singleton in Hk as ->. reflexivity. }
  split; [by intros ->|]. split; [|done].
  destruct v; by split.
Qed.

Lemma empty_string_not_null_sample :
  ∃ bs d, vfs.stat (fs (run blank_host sample_root).2) (settings_path (config_dir blank_host))
          = Ok (File true bs)
          ∧ reader.load bs = Some d
          ∧ (Some ([] : pystr) = Some [] → dict_get d (py "GH_APP_ID") = Some (PyStr []))
          ∧ (Some ([] : pystr) = None ↔ dict_get d (py "GH_APP_ID") = Some PyNone)
          ∧ json.iterencode_value (PyStr []) = [json.quote; json.quote]
          ∧ json.iterencode_value PyNone = py "null".
Proof.
  apply (empty_string_not_null blank_host sample_root (run blank_host sample_root).2
           (py "GH_APP_ID") (Some ([] : pystr)));
    [left | vm_compute; reflexivity | vm_compute; reflexivity | vm_compute; reflexivity |].
  apply run_outcome. vm_compute. reflexivity.
Defined.

(** C9. The bytes written depend on the two variables only. Two runs that
    return, with the same configuration directory and the same state of
    [GH_APP_ID] and of [GH_APP_URL], write the same bytes and leave the
    same content in the settings file, whatever else differs: the file
    system they start on, the rest of the environment, the locale's
    encoding. *)
Theorem written_bytes_deterministic h1 h2 (fs1 fs2 : filesystem) w1 w2
    (id url : option pystr) :
  config_dir h1 = config_dir h2 →
  environ h1 !! py "GH_APP_ID" = id → environ h2 !! py "GH_APP_ID" = id →
  environ h1 !! py "GH_APP_URL" = url → environ h2 !! py "GH_APP_URL" = url →
  run h1 fs1 = (Returned tt, w1) →
  run h2 fs2 = (Returned tt, w2) →
  written (log w1) = written (log w2)
  ∧ ∃ bs, written (log w1) = bs
          ∧ vfs.stat (fs w1) (settings_path (config_dir h1)) = Ok (File true bs)
          ∧ vfs.stat (fs w2) (settings_path (config_dir h2)) = Ok (File true bs).
Proof.
  intros Hc Hid1 Hid2 Hurl1 Hurl2 Hr1 Hr2.
  assert (settings_text h1 = settings_text h2) as Ht.
  { rewrite !settings_text_eq.
    rewrite (environ_get_lookup h1 _ id), (environ_get_lookup h2 _ id) by done.
    by rewrite (environ_get_lookup h1 _ url), (environ_get_lookup h2 _ url). }
  assert (∀ h (s : filesystem) w, run h s = (Returned tt, w) →
            written (log w) = ascii_bytes (settings_text h)) as Hw.
  { intros h s w Hr.
    destruct (run_log _ _ _ _ Hr) as (dirs & Hdirs & [[_ [? [=]]]|(s' & evs & -> & _ & _ & Hevs)]).
    rewrite written_app, written_dir_calls by done. cbn [app].
    change (written ((SysOpen (settings_path (config_dir h)), s') :: evs)) with (written evs).
    by apply Hevs. }
  rewrite (Hw _ _ _ Hr1), (Hw _ _ _ Hr2), Ht. split; [done|].
  exists (ascii_bytes (settings_text h2)). split; [done|]. split.
  - rewrite <- Ht. by apply (run_written h1 fs1).
  - by apply (run_written h2 fs2).
Qed.

Lemma written_bytes_deterministic_sample :
  written (log (run sample_host sample_root).2)
  = written (log (run other_host sample_installed).2)
  ∧ ∃ bs, written (log (run sample_host sample_root).2) = bs
          ∧ vfs.stat (fs (run sample_host sample_root).2)
              (settings_path (config_dir sample_host)) = Ok (File true bs)
          ∧ vfs.stat (fs (run other_host sample_installed).2)
              (settings_path (config_dir other_host)) = Ok (File true bs).
Proof.
  apply (written_bytes_deterministic sample_host other_host sample_root sample_installed
           _ _ (Some (py "abc123")) None);
    [reflexivity | vm_compute; reflexivity | vm_compute; reflexivity
    | vm_compute; reflexivity | vm_compute; reflexivity | |];
    apply run_outcome; vm_compute; reflexivity.
Defined.



(** * Further properties of the script *)

Section again.
Implicit Types (h : host) (w : world) (cfg : pystr) (s : filesystem).

(** A run on a file system whose settings file is there and writable. *)
Lemma run_on_file h s old :
  vfs.stat s (settings_path (config_dir h)) = Ok (File true old) →
  ∃ w' loc, run h s = (Returned tt, w')
            ∧ nodes s !! loc = Some (File true old)
            ∧ fs w' = vfs.put s loc (File true (ascii_bytes (settings_text h))).
Proof.
  rewrite settings_path_eq. intros Hf.
  destruct (file_present _ _ _ _ Hf) as ([wr' Hd] & loc & Hloc & Hopen).
  destruct (makedirs_present (config_dir h) {| fs := s; log := [] |} wr' Hd)
    as (evs & Emk & _).
  rewrite <- settings_dirname in Emk. cbn [fs log app] in Emk.
  pose proof (run_cases h s) as H. cbv zeta in H. rewrite Emk in H. cbn [fs] in H.
  rewrite settings_path_eq in H. rewrite Hopen in H.
  destruct H as (w' & Hrun & Hfs & _). by exists w', loc.
Qed.

End again.

(** X1. Running the script again changes nothing: when a run returns
    and a second run with the same host, on the file system the first
    one left, returns as well, the file system after the second run is
    exactly as the first run left it. *)
Theorem second_run_changes_nothing h (fs0 : filesystem) w1 w2 :
  run h fs0 = (Returned tt, w1) →
  run h (fs w1) = (Returned tt, w2) →
  fs w2 = fs w1.
Proof.
  intros Hrun Hagain. apply run_written in Hrun.
  destruct (run_on_file _ _ _ Hrun) as (w & loc & Hrun2 & Hloc & Hfs).
  assert (w = w2) as -> by congruence. rewrite Hfs. by apply put_same.
Qed.

Lemma second_run_changes_nothing_sample :
  fs (run sample_host (fs (run sample_host sample_root).2)).2
  = fs (run sample_host sample_root).2.
Proof.
  apply (second_run_changes_nothing sample_host sample_root);
    apply run_outcome; vm_compute; reflexivity.
Defined.

(** X2. A separator at the end of the configuration directory makes no
    difference to the settings path, as long as the directory is not the
    empty path (where it would turn a relative path into one from the
    root). *)
Theorem trailing_separator_ignored cfg :
  cfg ≠ [] → PyStr.endswith cfg posixpath.sep = false →
  settings_path (cfg ++ [posixpath.sep]) = settings_path cfg.
Proof.
  intros Hne He. rewrite !settings_path_eq. f_equal. unfold dir_prefix.
  rewrite endswith_snoc, He, N.eqb_refl, orb_true_r.
  by rewrite bool_decide_eq_false_2.
Qed.

Lemma trailing_separator_ignored_sample :
  settings_path (py "/home/u/.jupyter" ++ [posixpath.sep])
  = settings_path (py "/home/u/.jupyter").
Proof. apply trailing_separator_ignored; [done | vm_compute; reflexivity]. Defined.

(** X3. The file holds ASCII only, whatever characters the variables
    have: every byte of it is below 128, and the text encodes to these
    same bytes under each of the encodings a locale may choose. *)
Theorem file_is_ascii h (fs0 : filesystem) w' :
  run h fs0 = (Returned tt, w') →
  ∃ bs, vfs.stat (fs w') (settings_path (config_dir h)) = Ok (File true bs)
        ∧ Forall (λ b, Byte.to_N b < 128) bs
        ∧ ∀ enc, io.encode enc (json.dumps (settings_data (environ h)) (Some 2%nat)) = Some bs.
Proof.
  intros Hrun. exists (ascii_bytes (settings_text h)).
  split; [by apply (run_written h fs0)|]. split.
  - unfold ascii_bytes. apply Forall_fmap.
    eapply Forall_impl; [apply settings_text_ascii|]. intros c Hc. unfold compose. cbv beta in *.
    rewrite to_N_byte_of_N; lia.
  - intros enc. apply settings_text_encode.
Qed.

Lemma file_is_ascii_sample :
  ∃ bs, vfs.stat (fs (run sample_host sample_root).2) (settings_path (config_dir sample_host))
        = Ok (File true bs)
        ∧ Forall (λ b, Byte.to_N b < 128) bs
        ∧ ∀ enc, io.encode enc (json.dumps (settings_data (environ sample_host)) (Some 2%nat))
                 = Some bs.
Proof.
  apply (file_is_ascii sample_host sample_root).
  apply run_outcome. vm_compute. reflexivity.
Defined.

(** X4. When a directory sits where the settings file should be, the
    script raises [IsADirectoryError] from [open] and leaves the file
    system as it was. *)
Theorem directory_in_place_of_file h (fs0 : filesystem) wr :
  vfs.stat fs0 (settings_path (config_dir h)) = Ok (Dir wr) →
  ∃ w', run h fs0 = (Raised (OSError EISDIR), w') ∧ fs w' = fs0.
Proof.
  rewrite settings_path_eq. intros Hp.
  assert (∃ cur wr', vfs.lookup_parent fs0 (dir_prefix (config_dir h) ++ rel_file)
                     = Ok (cur, Some (py "plugin.json"))
                     ∧ nodes fs0 !! vfs.target cur (py "plugin.json") = Some (Dir wr)
                     ∧ vfs.stat fs0 (dir_prefix (config_dir h) ++ rel_dir) = Ok (Dir wr'))
    as (cur & wr' & L & Hn & Hd).
  { revert Hp. unfold vfs.stat.
    rewrite (lookup_parent_under _ _ _ [py "lab"; py "user-settings"; PLUGIN_ID]
               (py "plugin.json")) by done.
    destruct (vfs.walk _ _ _) as [cur|] eqn:W; [|done]. cbn [vfs.final].
    destruct (nodes fs0 !! vfs.target cur (py "plugin.json")) as [[wr0|wr0 d0]|] eqn:E;
      [|by destruct (PyStr.endswith _ _)|done].
    intros [= ->]. change [py "lab"; py "user-settings"; PLUGIN_ID]
      with ([py "lab"; py "user-settings"] ++ [PLUGIN_ID]) in W.
    rewrite app_assoc in W. apply walk_snoc_Ok in W as W'.
    destruct W' as (cur1 & wr' & W1 & -> & Hn').
    exists (vfs.target cur1 PLUGIN_ID), wr'. split; [|split; [done|]].
    - by rewrite <- app_assoc in W.
    - apply (stat_under_dir _ _ _ [py "lab"; py "user-settings"] PLUGIN_ID); eauto. }
  destruct (makedirs_present (config_dir h) {| fs := fs0; log := [] |} wr' Hd)
    as (evs & Emk & _).
  rewrite <- settings_dirname in Emk. cbn [fs log app] in Emk.
  pose proof (run_cases h fs0) as H. cbv zeta in H. rewrite Emk in H. cbn [fs] in H.
  rewrite settings_path_eq in H.
  assert (vfs.open_trunc fs0 (dir_prefix (config_dir h) ++ rel_file) = Error EISDIR) as Ho.
  { unfold vfs.open_trunc. rewrite L. cbn [vfs.final].
    destruct (_ || _); [done|]. by rewrite Hn. }
  rewrite Ho in H. eexists. split; [exact H | done].
Qed.

Lemma directory_in_place_of_file_sample :
  ∃ w', run sample_host sample_blocked = (Raised (OSError EISDIR), w')
        ∧ fs w' = sample_blocked.
Proof.
  apply (directory_in_place_of_file sample_host sample_blocked true).
  vm_compute. reflexivity.
Defined.

(** X5. The directory the script creates is the configuration directory
    joined with [lab], [user-settings] and the plugin's name: taking the
    directory part of the settings path undoes the last step of the join,
    for every configuration directory, the empty one and those with
    separators at the end included. *)
Theorem dirname_of_settings_path cfg :
  posixpath.dirname (settings_path cfg)
  = posixpath.join cfg [py "lab"; py "user-settings"; PLUGIN_ID].
Proof.
  rewrite settings_dirname. unfold posixpath.join. cbn [fold_left].
  rewrite (join_step_relative cfg) by done.
  change (py "lab") with ([108; 97] ++ [98]). rewrite (app_assoc (dir_prefix cfg)).
  rewrite (join_step_relative _ (py "user-settings")) by done.
  rewrite dir_prefix_snoc by done.
  change (py "user-settings") with (py "user-setting" ++ [115]).
  rewrite !app_assoc.
  rewrite (join_step_relative _ PLUGIN_ID) by done.
  rewrite dir_prefix_snoc by done.
  by rewrite <- !app_assoc.
Qed.

(** X6. The settings path starts at the root exactly when the
    configuration directory does; a relative configuration directory, the
    empty one included, gives a path that is resolved from the current
    directory. *)
Theorem settings_path_absolute_iff cfg (s : filesystem) :
  PyStr.startswith (settings_path cfg) posixpath.sep = PyStr.startswith cfg posixpath.sep
  ∧ vfs.start s (settings_path cfg)
    = if PyStr.startswith cfg posixpath.sep then [] else cwd s.
Proof.
  rewrite settings_path_eq. unfold vfs.start.
  assert (PyStr.startswith (dir_prefix cfg ++ rel_file) posixpath.sep
          = PyStr.startswith cfg posixpath.sep) as ->; [|done].
  unfold dir_prefix. destruct cfg as [|x cfg]; [done|].
  cbn [bool_decide orb]. rewrite bool_decide_eq_false_2 by done. cbn [orb].
  by destruct (PyStr.endswith _ _).
Qed.

Section frame.
Implicit Types (h : host) (w : world) (s : filesystem).







End frame.



(** ** Making the directories, step by step *)

Section steps.
Implicit Types (w : world) (s : filesystem) (name head tail cfg r : pystr).

(** The parent is there: [makedirs] looks at it and makes the directory. *)
Lemma makedirs_rec_head_there depth name head tail w n :
  posixpath.split name = (head, tail) → tail ≠ [] → head ≠ [] →
  vfs.stat (fs w) head = Ok n →
  os.makedirs_rec (S depth) name true w = make_last name true (logged w (SysStat head)).
Proof.
  intros Hs Ht Hh Hhead. rewrite makedirs_rec_S, Hs.
  rewrite (bool_decide_eq_false_2 (tail = [])) by done.
  rewrite !bool_decide_eq_true_2 by done. cbn [andb].
  unfold mbind at 1, M_bind at 1. unfold mbind at 1, M_bind at 1.
  rewrite path_exists_eq, Hhead. reflexivity.
Qed.

(** The parent is not there: [makedirs] makes it first, lets a
    [FileExistsError] from that go, and then makes the directory. *)
Lemma makedirs_rec_head_missing depth name head tail w e :
  posixpath.split name = (head, tail) → tail ≠ [] → tail ≠ os.curdir → head ≠ [] →
  vfs.stat (fs w) head = Error e →
  os.makedirs_rec (S depth) name true w
  = match os.makedirs_rec depth head true (logged w (SysStat head)) with
    | (Returned _, w1) => make_last name true w1
    | (Raised e', w1) =>
        if is_FileExistsError e' then make_last name true w1 else (Raised e', w1)
    end.
Proof.
  intros Hs Ht Hc Hh Hhead. rewrite makedirs_rec_S, Hs.
  rewrite (bool_decide_eq_false_2 (tail = [])) by done.
  rewrite !bool_decide_eq_true_2 by done. cbn [andb].
  rewrite (bool_decide_eq_false_2 (tail = os.curdir)) by done.
  unfold mbind at 1, M_bind at 1. unfold mbind at 1, M_bind at 1.
  rewrite path_exists_eq, Hhead. cbn [negb].
  unfold mbind at 1, M_bind at 1. unfold try_except at 1.
  destruct (os.makedirs_rec depth head true (logged w (SysStat head))) as [[[]|e'] w1];
    [reflexivity|].
  by destruct (is_FileExistsError e').
Qed.

End steps.

Section below_config_dir.
Implicit Types (w : world) (s : filesystem) (cfg r : pystr) (l c : list N)
  (cur loc : location).

Lemma unsnoc_Some {A} (xs : list A) i x : vfs.unsnoc xs = Some (i, x) → xs = i ++ [x].
Proof.
  revert i x. induction xs as [|y xs IH]; intros i x; cbn [vfs.unsnoc]; [done|].
  destruct (vfs.unsnoc xs) as [[i' x']|] eqn:E.
  - intros [= <- <-]. by rewrite (IH _ _ eq_refl).
  - intros [= <- <-]. by destruct xs as [|z xs]; [|cbn in E; destruct (vfs.unsnoc xs) as [[]|]].
Qed.

Lemma unsnoc_None {A} (xs : list A) : vfs.unsnoc xs = None → xs = [].
Proof. destruct xs as [|y xs]; [done|]. cbn. by destruct (vfs.unsnoc xs) as [[]|]. Qed.

(** A path that names a directory can be walked to its end. *)
Lemma stat_dir_walk s p wr :
  vfs.stat s p = Ok (Dir wr) →
  ∃ loc, vfs.walk s (vfs.start s p) (vfs.components p) = Ok loc
         ∧ nodes s !! loc = Some (Dir wr).
Proof.
  unfold vfs.stat, vfs.lookup_parent. destruct (bool_decide (p = [])); [done|].
  destruct (vfs.unsnoc (vfs.components p)) as [[init l]|] eqn:U.
  - apply unsnoc_Some in U as ->.
    destruct (vfs.walk s (vfs.start s p) init) as [cur|] eqn:W; [|done]. cbn [vfs.final].
    destruct (nodes s !! vfs.target cur l) as [[wr'|wr' d]|] eqn:E;
      [|by destruct (PyStr.endswith _ _)|done].
    intros [= ->]. exists (vfs.target cur l). split; [|done].
    rewrite walk_app, W. cbn. unfold vfs.enter. by rewrite E.
  - apply unsnoc_None in U as ->. cbn [vfs.final vfs.walk].
    destruct (nodes s !! vfs.start s p) as [[wr'|wr' d]|] eqn:E;
      [|by destruct (PyStr.endswith _ _)|done].
    intros [= ->]. eauto.
Qed.

Lemma components_from_nil p acc :
  vfs.components_from p acc = [] → acc = [] ∧ Forall (λ x, x = posixpath.sep) p.
Proof.
  revert acc. induction p as [|x p IH]; intros acc; cbn [vfs.components_from].
  - case_bool_decide; [done|done].
  - destruct (N.eqb_spec x posixpath.sep) as [->|Hc].
    + case_bool_decide as Ha; [|done]. intros H. apply IH in H as [_ H].
      split; [done|]. by constructor.
    + intros H. apply IH in H as [H _]. by destruct acc.
Qed.

(** A path that names a regular file cannot be walked to its end. *)
Lemma stat_file_walk s p wr d :
  vfs.stat s p = Ok (File wr d) →
  vfs.walk s (vfs.start s p) (vfs.components p) = Error ENOTDIR.
Proof.
  unfold vfs.stat, vfs.lookup_parent. case_bool_decide as Hp; [done|].
  destruct (vfs.unsnoc (vfs.components p)) as [[init l]|] eqn:U.
  - apply unsnoc_Some in U as ->.
    destruct (vfs.walk s (vfs.start s p) init) as [cur|] eqn:W; [|done]. cbn [vfs.final].
    destruct (nodes s !! vfs.target cur l) as [[wr'|wr' d']|] eqn:E; [done| |done].
    intros _. rewrite walk_app, W. cbn. unfold vfs.enter. by rewrite E.
  - apply unsnoc_None in U. apply components_from_nil in U as [_ U].
    assert (PyStr.endswith p posixpath.sep = true) as ->.
    { unfold PyStr.endswith. destruct (last p) as [x|] eqn:L.
      - apply last_Some in L as [a ->]. apply Forall_app in U as [_ U].
        apply Forall_cons_1 in U as [-> _]. apply N.eqb_refl.
      - apply last_None in L. done. }
    by destruct (nodes s !! _) as [[]|].
Qed.

Lemma target_plain cur l : vfs.special (@Some pystr l) = false → vfs.target cur l = l :: cur.
Proof.
  unfold vfs.special, vfs.target. intros H. apply orb_false_elim in H as [H1 H2].
  by rewrite H1, H2.
Qed.

(** [stat], [mkdir] and [open] of a path under the configuration
    directory whose last name is not there. *)
Lemma stat_under_missing s cfg r init l :
  r ≠ [] → PyStr.startswith r posixpath.sep = false →
  vfs.components r = init ++ [l] →
  match vfs.walk s (vfs.start s cfg) (vfs.components cfg ++ init) with
  | Ok cur => nodes s !! vfs.target cur l = None
  | Error _ => True
  end →
  ∃ e, vfs.stat s (dir_prefix cfg ++ r) = Error e.
Proof.
  intros Hr Hs Hc. unfold vfs.stat. rewrite (lookup_parent_under _ _ _ init l) by done.
  destruct (vfs.walk _ _ _) as [cur|e]; [|eauto]. cbn [vfs.final]. intros ->. eauto.
Qed.

Lemma mkdir_under s cfg r init l cur :
  r ≠ [] → PyStr.startswith r posixpath.sep = false →
  vfs.components r = init ++ [l] → vfs.special (@Some pystr l) = false →
  vfs.walk s (vfs.start s cfg) (vfs.components cfg ++ init) = Ok cur →
  nodes s !! (l :: cur) = None →
  vfs.mkdir s (dir_prefix cfg ++ r)
  = match vfs.may_create s cur with
    | Ok _ => Ok (vfs.put s (l :: cur) (Dir true))
    | Error e => Error e
    end.
Proof.
  intros Hr Hs Hc Hl W Hn. unfold vfs.mkdir.
  rewrite (lookup_parent_under _ _ _ init l), W by done.
  rewrite Hl. cbn [vfs.final]. rewrite target_plain by done. by rewrite Hn.
Qed.





End below_config_dir.

(** Rewriting with the equation [H] of a lookup in the table of a file
    system, wherever the goal has that lookup. *)
Ltac rewrite_lookup H :=
  match type of H with
  | _ = ?v =>
      match goal with
      | |- context [@lookup ?K ?A ?M ?I ?k (nodes ?s)] =>
          replace (@lookup K A M I k (nodes s)) with v by (symmetry; exact H)
      end
  end.

Section first_directory.
Implicit Types (w : world) (s : filesystem) (cfg : pystr).

Lemma prefix_plain cfg :
  cfg ≠ [] → PyStr.endswith cfg posixpath.sep = false →
  ∃ d x, cfg = d ++ [x] ∧ x ≠ posixpath.sep.
Proof.
  intros Hne He. unfold PyStr.endswith in He. destruct (last cfg) as [x|] eqn:L.
  - apply last_Some in L as [d ->]. exists d, x. split; [done|]. by apply N.eqb_neq.
  - by apply last_None in L.
Qed.

Lemma split_lab cfg :
  cfg ≠ [] → PyStr.endswith cfg posixpath.sep = false →
  posixpath.split (dir_prefix cfg ++ py "lab") = (cfg, py "lab").
Proof.
  intros Hne He. destruct (prefix_plain _ Hne He) as (d & x & -> & Hx).
  rewrite dir_prefix_snoc by done. rewrite !app_assoc, <- (app_assoc _ [posixpath.sep]).
  apply split_dir_base; [done | by repeat constructor].
Qed.

Lemma rstrip_snoc a x c :
  PyStr.rstrip (a ++ [x]) c = if x =? c then PyStr.rstrip a c else a ++ [x].
Proof.
  destruct (N.eqb_spec x c) as [->|Hx]; [apply rstrip_snoc_eq | by apply rstrip_snoc_ne].
Qed.

(** Only a run of [c] is stripped to nothing. *)
Lemma rstrip_nil a c : PyStr.rstrip a c = [] → a = PyStr.times [c] (length a).
Proof.
  induction a as [|y a IH]; cbn [PyStr.rstrip length]; [done|].
  destruct (PyStr.rstrip a c) eqn:E; [|done].
  destruct (N.eqb_spec y c) as [->|]; [|done]. intros _.
  unfold PyStr.times in *. cbn [replicate concat app]. f_equal. by apply IH.
Qed.

(** Separators at the end of a path change neither its names nor where
    it starts. *)
Lemma rstrip_same_dir a :
  PyStr.rstrip a posixpath.sep ≠ [] →
  vfs.components (PyStr.rstrip a posixpath.sep) = vfs.components a
  ∧ PyStr.startswith (PyStr.rstrip a posixpath.sep) posixpath.sep
    = PyStr.startswith a posixpath.sep.
Proof.
  induction a as [|x a IH] using rev_ind; [done|].
  rewrite rstrip_snoc. destruct (N.eqb_spec x posixpath.sep) as [->|Hx]; [|done].
  intros Hr. destruct (IH Hr) as [Hc Hs]. split.
  - by rewrite components_snoc_sep.
  - rewrite Hs. by destruct a.
Qed.

(** Two paths with the same names from the same start name the same
    directory. *)
Lemma stat_same_dir s p q wr :
  q ≠ [] → vfs.components q = vfs.components p →
  PyStr.startswith q posixpath.sep = PyStr.startswith p posixpath.sep →
  vfs.stat s p = Ok (Dir wr) → vfs.stat s q = Ok (Dir wr).
Proof.
  intros Hq Hc Hs. unfold vfs.stat, vfs.lookup_parent, vfs.start.
  rewrite Hc, Hs. rewrite (bool_decide_eq_false_2 (q = [])) by done.
  case_bool_decide; [done|].
  destruct (vfs.unsnoc _) as [[init l]|].
  - destruct (vfs.walk _ _ _); [|done].
    destruct (nodes s !! _) as [[]|]; [done| |done]. by destruct (PyStr.endswith p _).
  - destruct (nodes s !! _) as [[]|]; [done| |done]. by destruct (PyStr.endswith p _).
Qed.

Lemma stat_empty s : vfs.stat s [] = Error ENOENT.
Proof. reflexivity. Qed.

(** The head of [lab] under any configuration directory: the directory
    itself, without the separators it may end in. *)
Lemma split_lab_head cfg :
  cfg ≠ [] →
  ∃ head, posixpath.split (dir_prefix cfg ++ py "lab") = (head, py "lab")
          ∧ head ≠ []
          ∧ ∀ s wr, vfs.stat s cfg = Ok (Dir wr) → vfs.stat s head = Ok (Dir wr).
Proof.
  intros Hne. destruct (PyStr.endswith cfg posixpath.sep) eqn:He.
  2: { exists cfg. by rewrite split_lab. }
  unfold PyStr.endswith in He. destruct (last cfg) as [x|] eqn:L; [|done].
  apply last_Some in L as [a ->]. apply N.eqb_eq in He as ->.
  unfold dir_prefix. rewrite endswith_snoc, N.eqb_refl, orb_true_r.
  unfold posixpath.split, PyStr.upto, PyStr.from.
  rewrite <- app_assoc. cbn [app]. rewrite rfind_last by (by repeat constructor).
  replace (Z.to_nat (Z.of_nat (length a) + 1)) with (length (a ++ [posixpath.sep]))
    by (rewrite length_app; simpl; lia).
  rewrite (@cons_middle N posixpath.sep a (py "lab")), app_assoc.
  rewrite take_app_length, drop_app_length.
  rewrite bool_decide_eq_true_2 by done. cbn [andb].
  case_bool_decide as Hall.
  - exists (PyStr.rstrip (a ++ [posixpath.sep]) posixpath.sep). split; [done|].
    assert (PyStr.rstrip (a ++ [posixpath.sep]) posixpath.sep ≠ []) as Hr.
    { intros E. by apply rstrip_nil in E. }
    split; [done|]. intros s wr. destruct (rstrip_same_dir _ Hr). by apply stat_same_dir.
  - by exists (a ++ [posixpath.sep]).
Qed.

Lemma split_lab_user_settings cfg :
  posixpath.split (dir_prefix cfg ++ py "lab/user-settings")
  = (dir_prefix cfg ++ py "lab", py "user-settings").
Proof.
  change (py "lab/user-settings")
    with ((py "la" ++ [98]) ++ posixpath.sep :: py "user-settings").
  rewrite !app_assoc. rewrite split_dir_base; [| done | by repeat constructor].
  by rewrite <- !app_assoc.
Qed.

Lemma rel_dir_length cfg :
  ∃ d, length (dir_prefix cfg ++ rel_dir) = S (S d).
Proof.
  rewrite length_app. change (length rel_dir) with 30%nat.
  exists (length (dir_prefix cfg) + 28)%nat. lia.
Qed.

(** [makedirs] when the first directory under the configuration
    directory cannot be made: the error of that [mkdir] is what comes
    out, and nothing has changed. *)
Lemma blocked_makedirs cfg head w n e e1 e2 :
  posixpath.split (dir_prefix cfg ++ py "lab") = (head, py "lab") → head ≠ [] →
  vfs.stat (fs w) head = Ok n →
  vfs.stat (fs w) (dir_prefix cfg ++ py "lab") = Error e1 →
  vfs.stat (fs w) (dir_prefix cfg ++ py "lab/user-settings") = Error e2 →
  vfs.mkdir (fs w) (dir_prefix cfg ++ py "lab") = Error e → e ≠ EEXIST →
  os.makedirs (dir_prefix cfg ++ rel_dir) true w
  = (Raised (OSError e),
     {| fs := fs w;
        log := log w ++ [(SysStat (dir_prefix cfg ++ py "lab/user-settings"), fs w);
                         (SysStat (dir_prefix cfg ++ py "lab"), fs w);
                         (SysStat head, fs w);
                         (SysMkdir (dir_prefix cfg ++ py "lab"), fs w);
                         (SysStat (dir_prefix cfg ++ py "lab"), fs w)] |}).
Proof.
  intros Hsplit Hne H0 H1 H2 Hmk Hex. unfold os.makedirs.
  destruct (rel_dir_length cfg) as [d ->].
  rewrite (makedirs_rec_head_missing _ _ _ _ _ e2 (settings_dir_split cfg));
    [| done | done | by apply prefix_rel_nonempty | done].
  rewrite (makedirs_rec_head_missing _ _ _ _ _ e1 (split_lab_user_settings cfg));
    [| done | done | by apply prefix_rel_nonempty | done].
  rewrite (makedirs_rec_head_there _ _ _ _ _ n Hsplit); [| done | done | done].
  rewrite make_last_eq. cbn [fs logged]. rewrite Hmk, H1.
  assert (is_FileExistsError (OSError e) = false) as Hf by (by destruct e).
  rewrite !Hf. unfold logged. cbn [fs log]. by rewrite <- !app_assoc.
Qed.

(** What [lab] being missing under a directory that is there means for
    the table of the file system. *)
Lemma lab_missing s cfg wr :
  vfs.stat s cfg = Ok (Dir wr) →
  vfs.stat s (dir_prefix cfg ++ py "lab") = Error ENOENT →
  ∃ cur, vfs.walk s (vfs.start s cfg) (vfs.components cfg) = Ok cur
         ∧ nodes s !! cur = Some (Dir wr)
         ∧ nodes s !! (py "lab" :: cur) = None.
Proof.
  intros H0 H1. destruct (stat_dir_walk _ _ _ H0) as (cur & W & Hcur).
  exists cur. split; [done|]. split; [done|]. revert H1. unfold vfs.stat.
  rewrite (lookup_parent_under _ _ _ [] (py "lab")) by done.
  rewrite app_nil_r, W. cbn [vfs.final].
  rewrite (target_plain cur (py "lab")) by done.
  rewrite (endswith_app _ (py "lab")) by done.
  by destruct (nodes s !! (_ :: _)) as [[]|] eqn:E.
Qed.

(** [makedirs] under a configuration directory that cannot be written
    to and has no [lab]: the first [mkdir] is refused. *)
Lemma locked_makedirs cfg s :
  vfs.stat s cfg = Ok (Dir false) →
  vfs.stat s (dir_prefix cfg ++ py "lab") = Error ENOENT →
  ∃ head,
    os.makedirs (dir_prefix cfg ++ rel_dir) true {| fs := s; log := [] |}
    = (Raised (OSError EACCES),
       {| fs := s;
          log := [(SysStat (dir_prefix cfg ++ py "lab/user-settings"), s);
                  (SysStat (dir_prefix cfg ++ py "lab"), s);
                  (SysStat head, s);
                  (SysMkdir (dir_prefix cfg ++ py "lab"), s);
                  (SysStat (dir_prefix cfg ++ py "lab"), s)] |}).
Proof.
  intros H0 H1.
  assert (cfg ≠ []) as Hne by (intros E; by rewrite E, stat_empty in H0).
  destruct (lab_missing _ _ _ H0 H1) as (c0 & W & Hc0 & Hlab).
  destruct (stat_under_missing s cfg (py "lab/user-settings")
              [py "lab"] (py "user-settings")) as [e2 H2]; [done..| |].
  { rewrite walk_app, W. cbn [vfs.walk]. unfold vfs.enter.
    rewrite (target_plain c0 (py "lab")) by done. by rewrite_lookup Hlab. }
  assert (vfs.mkdir s (dir_prefix cfg ++ py "lab") = Error EACCES) as Hmk.
  { rewrite (mkdir_under _ _ _ [] (py "lab") c0); [| done.. | by rewrite app_nil_r | done].
    unfold vfs.may_create. by rewrite Hc0. }
  destruct (split_lab_head _ Hne) as (head & Hsplit & Hhead & Hstat).
  exists head.
  by apply (blocked_makedirs cfg head {| fs := s; log := [] |} (Dir false) EACCES ENOENT e2
              Hsplit Hhead (Hstat _ _ H0) H1 H2 Hmk).
Qed.

End first_directory.

(** X8. When the configuration directory is there but cannot be written
    to, and has no [lab] in it, the script raises [PermissionError] from
    the first [mkdir]: the file is never opened and the file system is as
    it was. This holds for every way of writing the configuration
    directory, with separators at its end or without. *)
Theorem read_only_config_dir h (fs0 : filesystem) :
  vfs.stat fs0 (config_dir h) = Ok (Dir false) →
  vfs.stat fs0 (posixpath.join (config_dir h) [py "lab"]) = Error ENOENT →
  ∃ w', run h fs0 = (Raised (OSError EACCES), w')
        ∧ fs w' = fs0 ∧ opened (log w') = []
        ∧ made (log w') = [posixpath.join (config_dir h) [py "lab"]].
Proof.
  rewrite join_lab. intros H0 H1.
  destruct (locked_makedirs _ _ H0 H1) as [head Emk]. rewrite <- settings_dirname in Emk.
  pose proof (run_cases h fs0) as H. cbv zeta in H. rewrite Emk in H.
  eexists. split; [exact H|]. by repeat split.
Qed.

Lemma read_only_config_dir_sample :
  ∃ w', run slash_host sample_locked = (Raised (OSError EACCES), w')
        ∧ fs w' = sample_locked ∧ opened (log w') = []
        ∧ made (log w') = [posixpath.join (config_dir slash_host) [py "lab"]].
Proof.
  apply (read_only_config_dir slash_host sample_locked); vm_compute; reflexivity.
Defined.

(** X9. When a regular file sits where the configuration directory
    should be, the script raises [NotADirectoryError] from the first
    [mkdir] and leaves the file system as it was. *)
Theorem config_dir_is_a_file h (fs0 : filesystem) wr d :
  config_dir h ≠ [] → PyStr.endswith (config_dir h) posixpath.sep = false →
  vfs.stat fs0 (config_dir h) = Ok (File wr d) →
  ∃ w', run h fs0 = (Raised (OSError ENOTDIR), w')
        ∧ fs w' = fs0 ∧ opened (log w') = [].
Proof.
  intros Hne He H0. pose proof (stat_file_walk _ _ _ _ H0) as W.
  assert (vfs.stat fs0 (dir_prefix (config_dir h) ++ py "lab") = Error ENOTDIR) as H1.
  { unfold vfs.stat. rewrite (lookup_parent_under _ _ _ [] (py "lab")) by done.
    by rewrite app_nil_r, W. }
  assert (vfs.stat fs0 (dir_prefix (config_dir h) ++ py "lab/user-settings")
          = Error ENOTDIR) as H2.
  { unfold vfs.stat.
    rewrite (lookup_parent_under _ _ _ [py "lab"] (py "user-settings")) by done.
    by rewrite walk_app, W. }
  assert (vfs.mkdir fs0 (dir_prefix (config_dir h) ++ py "lab") = Error ENOTDIR) as Hmk.
  { unfold vfs.mkdir. rewrite (lookup_parent_under _ _ _ [] (py "lab")) by done.
    by rewrite app_nil_r, W. }
  pose proof (blocked_makedirs (config_dir h) (config_dir h) {| fs := fs0; log := [] |}
                _ _ _ _ (split_lab _ Hne He) Hne H0 H1 H2 Hmk) as Emk.
  rewrite <- settings_dirname in Emk. specialize (Emk ltac:(done)).
  pose proof (run_cases h fs0) as H. cbv zeta in H. rewrite Emk in H.
  eexists. split; [exact H | done].
Qed.

Lemma config_dir_is_a_file_sample :
  ∃ w', run sample_host sample_file_in_the_way = (Raised (OSError ENOTDIR), w')
        ∧ fs w' = sample_file_in_the_way ∧ opened (log w') = [].
Proof.
  apply (config_dir_is_a_file sample_host sample_file_in_the_way true []);
    [done | vm_compute; reflexivity..].
Defined.


Section fresh.
Implicit Types (w : world) (s : filesystem) (cfg r : pystr) (l : list N) (cur : location).






End fresh.


